(** * scanResults.js: vote aggregation and distribution summary

    A shallow embedding of [scripts/scanResults.js] and the properties of
    its decode / aggregate / summarize pipeline.

    Modelling conventions.
    - A [Buffer] is a [list byte]; a JS string is a [string]; hex strings
      are lower case, as [Buffer.toString('hex')] and [bufferToHex]
      produce them.
    - A JS number holding an integer is a [Z].  [BigNumber.toNumber]
      refuses anything wider than 53 bits, so every decoded vote count is
      an exact integer.  The running totals are doubles: the sum the
      callback stores is [jsAdd], the exact sum rounded to the nearest
      double, ties to the even mantissa.  Only the exponent range is left
      out: a JS array has fewer than 2^32 elements, so a total stays below
      2^85.
    - A JS object used as a dictionary is a [gmap] of its own keys; the
      [Set] of voters is a [gset].  An object also inherits the properties
      of [Object.prototype], which the [gmap] does not show: statements
      about the value of a ledger entry are made for keys that are no
      property of [Object.prototype] ([ordinaryKey]).
    - A JS exception is the [Throw] outcome; nothing in the script catches
      one, so a [Throw] inside the [forEach] callback ends the run.
    - [console.warn] appends to the [warnings] field of the state.
    - The contract ABIs ([build/contracts/*.json]), the ABI coder of
      [ethers] and the [ripemd160] digest are not part of the script:
      they are the fields of the [Contracts] class. *)

From Stdlib Require Import ZArith.
From Stdlib.Strings Require Import Byte Ascii String.
From stdpp Require Import gmap strings list fin_maps sorting pretty.

Local Open Scope Z_scope.

(** ** Tactics *)

(** Closes a decidable goal by evaluating its decision. *)
Ltac by_decide :=
  lazymatch goal with
  | |- ?P => apply (@bool_decide_unpack P _); vm_compute; exact I
  end.

(** ** Exceptions *)

Inductive exn := TypeError | DecodeError | NumericFault.

Inductive outcome (A : Type) :=
  | Ok (a : A)
  | Throw (e : exn).
Arguments Ok {A} a.
Arguments Throw {A} e.

#[global] Instance outcome_ret : MRet outcome := λ A a, Ok a.
#[global] Instance outcome_bind : MBind outcome := λ A B f m,
  match m with
  | Ok a => f a
  | Throw e => Throw e
  end.

#[global] Instance exn_eq_dec : EqDecision exn.
Proof. solve_decision. Defined.

#[global] Instance byte_eq_dec : EqDecision byte := Byte.byte_eq_dec.

(** ** Data *)

Module Data.

Record Input := {
  msgData : list byte;
  script : list byte;
  signer : string;
}.

Record Output := {
  address : string;
  color : Z;
  value : Z;
}.

Record Tx := {
  type : Z;
  inputs : list Input;
  outputs : list Output;
}.

(** [slimProposal] *)
Record Proposal := {
  title : string;
  proposalId : string;
  boothAddress : string;
  yesBoxAddress : string;
  noBoxAddress : string;
}.

(** A value produced by the ABI decoder: a [BigNumber] for the integer
    types, anything else otherwise. *)
Inductive abiValue :=
  | BigNumber (z : Z)
  | NotNumber.

(** A line written by [console.warn]. *)
Inductive diagnostic :=
  | UnknownProposalVote (boxAddress : string).

(** [distr], [voters] and the warnings written so far. *)
Record state := {
  distr : gmap string (gmap string Z);
  voters : gset string;
  warnings : list diagnostic;
}.

End Data.
Export Data.

#[global] Instance diagnostic_eq_dec : EqDecision diagnostic.
Proof. solve_decision. Defined.

(** ** What the script imports *)

Class Contracts := {
  (** [booth.functions.castBallot.sighash.replace('0x', '')] *)
  voteFuncSig : string;
  (** [box.functions.withdraw.sighash.replace('0x', '')] *)
  withdrawFuncSig : string;
  (** [ethers.utils.defaultAbiCoder.decode(paramTypes, hex)] with
      [paramTypes] the input types of [castBallot]; [None] when the coder
      throws. *)
  abiDecode : string → option (list abiValue);
  (** [ripemd160] of ethereumjs-util *)
  ripemd160 : list byte → list byte;
}.

(** ** Hex strings *)

Definition hexDigit (n : N) : ascii :=
  default "0"%char
    (["0"; "1"; "2"; "3"; "4"; "5"; "6"; "7";
      "8"; "9"; "a"; "b"; "c"; "d"; "e"; "f"]%char !! N.to_nat n).

Definition toHex (b : list byte) : string :=
  foldr (λ x s,
    String (hexDigit (Byte.to_N x / 16)) (String (hexDigit (Byte.to_N x `mod` 16)) s))
    "" b.

Definition bufferToHex (b : list byte) : string := "0x" +:+ toHex b.

(** ** Numbers *)

Definition factor18 : Z := 10 ^ 18.

(** The double nearest to the integer [z]: integers of at most 53 bits are
    doubles; beyond, a double is a 53-bit mantissa times a power of two
    [ulp], and a tie goes to the even mantissa. *)
Definition roundDouble (z : Z) : Z :=
  let e := Z.log2 (Z.abs z) - 52 in
  if bool_decide (e ≤ 0) then z
  else
    let ulp := 2 ^ e in
    let q := z `div` ulp in
    let r := z `mod` ulp in
    if bool_decide (2 * r < ulp) then q * ulp
    else if bool_decide (ulp < 2 * r) then (q + 1) * ulp
    else if Z.even q then q * ulp else (q + 1) * ulp.

(** [a + b] on two doubles that hold integers. *)
Definition jsAdd (a b : Z) : Z := roundDouble (a + b).

(** [BigNumber.toNumber]: at most 53 bits, or a numeric fault. *)
Definition toNumber (z : Z) : outcome Z :=
  if bool_decide (Z.abs z < 2 ^ 53) then Ok z else Throw NumericFault.

(** ** The script *)

Section script.
Context `{Contracts}.

Definition input (tx : Tx) (i : nat) : outcome Input :=
  match inputs tx !! i with
  | Some x => Ok x
  | None => Throw TypeError
  end.

Definition getFuncSig (tx : Tx) : outcome string :=
  i ← input tx 0; Ok (toHex (take 4 (msgData i))).

Definition isSpendie (tx : Tx) : bool := bool_decide (type tx = 13).

Definition isVote (tx : Tx) : outcome bool :=
  if isSpendie tx
  then s ← getFuncSig tx; Ok (bool_decide (s = voteFuncSig))
  else Ok false.

Definition isWithdraw (tx : Tx) : outcome bool :=
  if isSpendie tx
  then s ← getFuncSig tx; Ok (bool_decide (s = withdrawFuncSig))
  else Ok false.

(** The constant [votes] of [getVotes]: the 4th parameter over 10^18. *)
Definition decodedVotes (tx : Tx) : outcome Z :=
  i ← input tx 0;
  match abiDecode (bufferToHex (drop 4 (msgData i))) with
  | None => Throw DecodeError
  | Some params =>
      match params !! 3%nat with
      | Some (BigNumber p) => toNumber (Z.quot p factor18)
      | _ => Throw TypeError
      end
  end.

Definition getVotes (tx : Tx) : outcome Z :=
  votes ← decodedVotes tx;
  w ← isWithdraw tx;
  Ok (if w : bool then - votes else votes).

Definition getProposalByBox (proposals : list Proposal) (boxAddress : string)
  : option Proposal :=
  List.find (λ prop,
    bool_decide (yesBoxAddress prop = boxAddress)
    || bool_decide (noBoxAddress prop = boxAddress)) proposals.

Definition getBoxAddress (tx : Tx) (voter : string) : outcome string :=
  w ← isWithdraw tx;
  if w : bool
  then i ← input tx 0; Ok (bufferToHex (ripemd160 (script i)))
  else
    match List.find (λ o,
            bool_decide (address o ≠ voter) && bool_decide (color o = 4))
            (outputs tx) with
    | Some o => Ok (address o)
    | None => Throw TypeError
    end.

(** The result is the proposal id, or [None] for [undefined], with the
    warnings written on the way. *)
Definition getProposalId (tx : Tx) (proposals : list Proposal) (voter : string)
  : outcome (option string * list diagnostic) :=
  boxAddress ← getBoxAddress tx voter;
  match getProposalByBox proposals boxAddress with
  | Some prop =>
      if bool_decide (proposalId prop ≠ "")
      then Ok (Some (proposalId prop), [])
      else Ok (None, [UnknownProposalVote boxAddress])
  | None => Ok (None, [UnknownProposalVote boxAddress])
  end.

(** [isVote(tx) || isWithdraw(tx)] *)
Definition isRelevant (tx : Tx) : outcome bool :=
  v ← isVote tx;
  if v : bool then Ok true else isWithdraw tx.

(** The callback of [txs.forEach]. *)
Definition step (proposals : list Proposal) (tx : Tx) (st : state)
  : outcome state :=
  r ← isRelevant tx;
  if r : bool then
    i ← input tx 1;
    let voter := signer i in
    let voters' := {[voter]} ∪ voters st in
    '(pid, warned) ← getProposalId tx proposals voter;
    match pid with
    | None =>
        Ok {| distr := distr st; voters := voters';
              warnings := warnings st ++ warned |}
    | Some proposalId =>
        let distr' :=
          match distr st !! proposalId with
          | Some _ => distr st
          | None => <[proposalId := ∅]> (distr st)
          end in
        let proposalVotes := default ∅ (distr' !! proposalId) in
        votes ← getVotes tx;
        let prevVote := default 0 (proposalVotes !! voter) in
        w ← isWithdraw tx;
        let votes := if bool_decide (prevVote < 0) && w then - votes else votes in
        Ok {| distr :=
                <[proposalId :=
                   <[voter := jsAdd (default 0 (proposalVotes !! voter)) votes]>
                     proposalVotes]> distr';
              voters := voters';
              warnings := warnings st ++ warned |}
    end
  else Ok st.

Fixpoint forEach (proposals : list Proposal) (txs : list Tx) (st : state)
  : outcome state :=
  match txs with
  | [] => Ok st
  | tx :: txs => st' ← step proposals tx st; forEach proposals txs st'
  end.

Definition initial : state :=
  {| distr := ∅; voters := ∅; warnings := [] |}.

End script.

(** ** The summary *)

Definition countByNumberOfVotes (arr : list (string * Z)) : gmap Z Z :=
  fold_left (λ r v, <[v.2 := default 0 (r !! v.2) + 1]> r) arr ∅.

(** [Object.values(countByVote).reduce((r, v) => r += v, 0)] *)
Definition totalVotes (countByVote : gmap Z Z) : Z :=
  fold_left (λ r v, r + v) (map_to_list countByVote).*2 0.

(** The body of the [map] that builds [groupedDistr]. *)
Definition summarize (st : state) (proposalId : string) : string * gmap Z Z :=
  let countByVote :=
    countByNumberOfVotes (map_to_list (default ∅ (distr st !! proposalId))) in
  let totalVotesForProposal := totalVotes countByVote in
  (proposalId,
   <[0 := default 0 (countByVote !! 0) + Z.of_nat (size (voters st))
          - totalVotesForProposal]> countByVote).

(** [Object.keys(distr).sort()]: the default order of [sort] compares
    strings code unit by code unit. *)
Definition sortedKeys (d : gmap string (gmap string Z)) : list string :=
  merge_sort String.le (map_to_list d).*1.

Definition groupedDistr (st : state) : list (string * gmap Z Z) :=
  summarize st <$> sortedKeys (distr st).

(** The comparator [(a, b) => a[0] - b[0]] on entries. *)
Definition byVotes (a b : Z * Z) : Prop := a.1 ≤ b.1.

#[global] Instance byVotes_dec : RelDecision byVotes.
Proof. intros a b. unfold byVotes. apply _. Defined.

(** [Object.entries(v.distr).sort((a, b) => a[0] - b[0])] *)
Definition sortedEntries (countByVote : gmap Z Z) : list (Z * Z) :=
  merge_sort byVotes (map_to_list countByVote).

Definition csvRow (proposalId : string) (e : Z * Z) : string :=
  proposalId +:+ "," +:+ pretty e.1 +:+ "," +:+ pretty e.2.

Definition csvRows (v : string * gmap Z Z) : list string :=
  csvRow v.1 <$> sortedEntries v.2.

Definition distributionByVoteCSV (grouped : list (string * gmap Z Z))
  : list string :=
  "Proposal,Votes,Count" :: concat (csvRows <$> grouped).

(** The whole run: the rows of the CSV file and the final state, or the
    exception that ended it. *)
Definition main `{Contracts} (proposals : list Proposal) (txs : list Tx)
  : outcome (list string * state) :=
  st ← forEach proposals txs initial;
  Ok (distributionByVoteCSV (groupedDistr st), st).

(** ** Vocabulary of the statements *)

(** The running total of [voter] for [proposalId], 0 when there is none:
    [proposalVotes[voter] || 0]. *)
Definition netVotes (st : state) (proposalId voter : string) : Z :=
  default 0 (default ∅ (distr st !! proposalId) !! voter).

(** The ledger entry of [voter] for [proposalId], when there is one. *)
Definition entry (st : state) (proposalId voter : string) : option Z :=
  distr st !! proposalId ≫= (.!! voter).

(** The signed amount the callback adds to the running total [prevVote]. *)
Definition delta (withdrawal : bool) (prevVote votes : Z) : Z :=
  if withdrawal
  then if bool_decide (prevVote < 0) then votes else - votes
  else votes.

(** The state after a transaction that resolves to [proposalId] and
    decodes to [votes]. *)
Definition aggregated (st : state) (proposalId voter : string)
    (withdrawal : bool) (votes : Z) (warned : list diagnostic) : state :=
  {| distr :=
       <[proposalId :=
          <[voter := jsAdd (netVotes st proposalId voter)
                       (delta withdrawal (netVotes st proposalId voter) votes)]>
            (default ∅ (distr st !! proposalId))]> (distr st);
     voters := {[voter]} ∪ voters st;
     warnings := warnings st ++ warned |}.

(** The own properties of [Object.prototype]: the keys under which a
    fresh object [{}] does not read [undefined]. *)
Definition objectPrototypeKeys : list string :=
  [ "constructor"; "__defineGetter__"; "__defineSetter__"; "hasOwnProperty";
    "__lookupGetter__"; "__lookupSetter__"; "isPrototypeOf";
    "propertyIsEnumerable"; "toString"; "valueOf"; "__proto__";
    "toLocaleString" ].

Definition ordinaryKey (k : string) : Prop := k ∉ objectPrototypeKeys.

#[global] Instance ordinaryKey_dec (k : string) : Decision (ordinaryKey k).
Proof. unfold ordinaryKey. apply _. Defined.

(** Every voter with a ledger entry is in [voters]. *)
Definition votersRecorded (st : state) : Prop :=
  ∀ proposalId proposalVotes,
    distr st !! proposalId = Some proposalVotes →
    dom proposalVotes ⊆ voters st.

(** The sum of a list of counts. *)
Definition sumList (l : list Z) : Z := foldr Z.add 0 l.

(** ** A concrete set of contracts

    Stand-ins for the imported parts, used to run the script on concrete
    transactions: two selectors, a decoder for four static 32-byte head
    words read as [int256], and a digest that keeps the first 20 bytes. *)

Module Demo.

Definition hexValue (c : ascii) : option Z :=
  let n := Z.of_N (N_of_ascii c) in
  if bool_decide (48 ≤ n ≤ 57) then Some (n - 48)
  else if bool_decide (97 ≤ n ≤ 102) then Some (n - 87)
  else None.

Fixpoint hexDigits (s : string) : option (list Z) :=
  match s with
  | EmptyString => Some []
  | String c s => d ← hexValue c; ds ← hexDigits s; Some (d :: ds)
  end.

Definition wordOf (ds : list Z) : Z := fold_left (λ a d, 16 * a + d) ds 0.

(** [fromTwos(256)] *)
Definition int256 (u : Z) : Z := if bool_decide (u < 2 ^ 255) then u else u - 2 ^ 256.

Definition headWord (ds : list Z) (i : nat) : abiValue :=
  BigNumber (int256 (wordOf (take 64 (drop (64 * i) ds)))).

Definition decodeHead (hex : string) : option (list abiValue) :=
  match hex with
  | String "0" (String "x" s) =>
      ds ← hexDigits s;
      if bool_decide (256 ≤ length ds)%nat
      then Some (headWord ds <$> [0; 1; 2; 3]%nat)
      else None
  | _ => None
  end.

Fixpoint bytesBE (n : nat) (z : Z) : list byte :=
  match n with
  | O => []
  | S n =>
      default x00 (Byte.of_N (Z.to_N ((z `div` 256 ^ Z.of_nat n) `mod` 256)))
        :: bytesBE n z
  end.

(** The payload of a call: selector, then four head words. *)
Definition payload (selector : list byte) (a b c d : Z) : list byte :=
  selector ++ bytesBE 32 a ++ bytesBE 32 b ++ bytesBE 32 c ++ bytesBE 32 d.

Definition castBallotSelector : list byte := [x5c; x19; xa9; x5c].
Definition withdrawSelector : list byte := [x2e; x1a; x7d; x4d].

#[export] Instance contracts : Contracts := {|
  voteFuncSig := toHex castBallotSelector;
  withdrawFuncSig := toHex withdrawSelector;
  abiDecode := decodeHead;
  ripemd160 := take 20;
|}.

Definition alice : string := "0xa11ce".
Definition bob : string := "0xb0b".

Definition yesScript : list byte := [x01; x02; x03].
Definition noScript : list byte := [x0a; x0b; x0c].
Definition strayScript : list byte := [xff].

Definition yesBox : string := bufferToHex (take 20 yesScript).
Definition noBox : string := bufferToHex (take 20 noScript).
Definition strayBox : string := bufferToHex (take 20 strayScript).

Definition proposals : list Proposal :=
  [ {| title := "First"; proposalId := "P1"; boothAddress := "0xb1";
       yesBoxAddress := yesBox; noBoxAddress := noBox |} ].

Definition tokens (n : Z) : Z := n * 10 ^ 18.

(** A [castBallot] of [n] votes by [voter] into [box]. *)
Definition vote (voter box : string) (amount : Z) : Tx :=
  {| type := 13;
     inputs :=
       [ {| msgData := payload castBallotSelector 1 128 0 amount;
            script := []; signer := "" |};
         {| msgData := []; script := []; signer := voter |} ];
     outputs :=
       [ {| address := voter; color := 4; value := 1 |};
         {| address := box; color := 4; value := 1 |} ] |}.

(** A [withdraw] of [amount] by [voter] from the box with [boxScript]. *)
Definition withdraw (voter : string) (boxScript : list byte) (amount : Z) : Tx :=
  {| type := 13;
     inputs :=
       [ {| msgData := payload withdrawSelector 1 128 0 amount;
            script := boxScript; signer := "" |};
         {| msgData := []; script := []; signer := voter |} ];
     outputs := [ {| address := voter; color := 4; value := 1 |} ] |}.

(** A [castBallot] whose payload stops after the selector. *)
Definition truncated (voter box : string) : Tx :=
  {| type := 13;
     inputs :=
       [ {| msgData := castBallotSelector; script := []; signer := "" |};
         {| msgData := []; script := []; signer := voter |} ];
     outputs := [ {| address := box; color := 4; value := 1 |} ] |}.

(** A state in which [alice] stands at -3 on the proposal. *)
Definition minusThree : state :=
  {| distr := {[ "P1" := {[ alice := -3 ]} ]};
     voters := {[ alice ]};
     warnings := [] |}.

(** A short ledger: a no vote and its withdrawal, a yes vote, and a
    withdrawal from a box that no proposal knows. *)
Definition ledger : list Tx :=
  [ vote alice noBox (tokens (-3));
    withdraw alice noScript (tokens 3);
    vote bob yesBox (tokens 7);
    withdraw bob strayScript (tokens 1) ].

(** The rows of the CSV of a run, when it ends normally. *)
Definition csvOf (txs : list Tx) : outcome (list string) :=
  r ← main proposals txs; Ok r.1.

End Demo.

(** ** Fetching the transactions and the proposals

    [downloadTxs] and [getProposals] without their file and console
    output.  The node and the proposal feed are arguments: [getBlock] is
    [(await plasma.getBlock(blockNum, true)).transactions], [None] when the
    promise is rejected; the feed is [rawProps.contents.proposals].  A
    property that an object lacks reads as the empty string, which is falsy
    like [undefined]. *)

Module Fetch.

(** A transaction as the node returns it. *)
Record BlockTx := {
  hash : string;
  blockHash : string;
  blockNumber : Z;
  from : string;
  to : string;
  raw : string;
  others : gmap string string;
}.

(** What [slimTx] keeps of it. *)
Record SlimTx := {
  slimHash : string;
  slimBlockHash : string;
  slimBlockNumber : Z;
  slimFrom : string;
  slimTo : string;
  slimRaw : string;
}.

Definition slimTx (t : BlockTx) : SlimTx :=
  {| slimHash := hash t; slimBlockHash := blockHash t;
     slimBlockNumber := blockNumber t; slimFrom := from t; slimTo := to t;
     slimRaw := raw t |}.

Definition startBlock : Z := 87632.
Definition endBlock : Z := 91470.

(** The [for] loop of [downloadTxs], entered at [blockNum] with [count]
    blocks to go and [txs] collected so far. *)
Fixpoint downloadFrom (getBlock : Z → option (list BlockTx))
    (count : nat) (blockNum : Z) (txs : list SlimTx) : option (list SlimTx) :=
  match count with
  | O => Some txs
  | S count =>
      transactions ← getBlock blockNum;
      downloadFrom getBlock count (blockNum + 1) (txs ++ (slimTx <$> transactions))
  end.

Definition downloadTxs (getBlock : Z → option (list BlockTx))
  : option (list SlimTx) :=
  downloadFrom getBlock (Z.to_nat (endBlock - startBlock + 1)) startBlock [].

(** [getTxData]: the file when there is one, the download otherwise. *)
Definition getTxData (votesFile : option (list SlimTx))
    (getBlock : Z → option (list BlockTx)) : option (list SlimTx) :=
  match votesFile with
  | Some txs => Some txs
  | None => downloadTxs getBlock
  end.

(** A proposal as the feed lists it. *)
Record FeedProposal := {
  feedTitle : string;
  feedProposalId : string;
  feedBoothAddress : string;
  feedYesBoxAddress : string;
  feedNoBoxAddress : string;
  feedOthers : gmap string string;
}.

Definition slimProposal (p : FeedProposal) : Proposal :=
  {| title := feedTitle p; proposalId := feedProposalId p;
     boothAddress := feedBoothAddress p;
     yesBoxAddress := feedYesBoxAddress p;
     noBoxAddress := feedNoBoxAddress p |}.

(** [getProposals]: the file when there is one, the filtered feed
    otherwise. *)
Definition getProposals (proposalsFile : option (list Proposal))
    (feed : list FeedProposal) : list Proposal :=
  match proposalsFile with
  | Some proposals => proposals
  | None => slimProposal <$> filter (λ p, feedProposalId p ≠ "") feed
  end.

End Fetch.

(** ** More concrete inputs *)

Module Sample.
Import Demo Fetch.

(** A transfer: not of type 13, and without inputs. *)
Definition transfer : Tx := {| type := 3; inputs := []; outputs := [] |}.

(** A spend without inputs. *)
Definition hollow : Tx := {| type := 13; inputs := []; outputs := [] |}.


(** A state in which [alice] stands at 5 on the proposal. *)
Definition plusFive : state :=
  {| distr := {[ "P1" := {[ alice := 5 ]} ]};
     voters := {[ alice ]};
     warnings := [] |}.

Definition blockTx (number : Z) (id : string) : BlockTx :=
  {| hash := id; blockHash := "0xb10c"; blockNumber := number;
     from := "0xf"; to := "0x7"; raw := id; others := ∅ |}.

(** A node with one transaction in block 87632, two in block 90000 and
    none elsewhere. *)
Definition node (b : Z) : option (list BlockTx) :=
  if bool_decide (b = 87632) then Some [blockTx 87632 "0x01"]
  else if bool_decide (b = 90000)
       then Some [blockTx 90000 "0x02"; blockTx 90000 "0x03"]
       else Some [].

(** A feed with a draft that has no id yet. *)
Definition feed : list FeedProposal :=
  [ {| feedTitle := "Draft"; feedProposalId := ""; feedBoothAddress := "";
       feedYesBoxAddress := strayBox; feedNoBoxAddress := "";
       feedOthers := ∅ |};
    {| feedTitle := "First"; feedProposalId := "P1";
       feedBoothAddress := "0xb1";
       feedYesBoxAddress := yesBox; feedNoBoxAddress := noBox;
       feedOthers := {[ "description" := "The first proposal" ]} |} ].

End Sample.

(** ** More vocabulary *)

(** Every key of [distr] is the non-empty id of a proposal of the
    registry, and holds at least one entry. *)
Definition ledgerKnown (proposals : list Proposal) (st : state) : Prop :=
  ∀ pid proposalVotes,
    distr st !! pid = Some proposalVotes →
    proposalVotes ≠ ∅ ∧ pid ≠ ""
    ∧ ∃ prop, prop ∈ proposals ∧ proposalId prop = pid.

(** The signer of input 1 of a relevant transaction. *)
Definition castBy `{Contracts} (tx : Tx) (voter : string) : Prop :=
  isRelevant tx = Ok true
  ∧ ∃ i, inputs tx !! 1%nat = Some i ∧ signer i = voter.

(** A string of lower-case hex digits. *)
Fixpoint lowerHex (s : string) : bool :=
  match s with
  | EmptyString => true
  | String c s =>
      bool_decide (c ∈ ["0"; "1"; "2"; "3"; "4"; "5"; "6"; "7";
                        "8"; "9"; "a"; "b"; "c"; "d"; "e"; "f"]%char)
      && lowerHex s
  end.

(** The votes of a histogram, each value weighted by its count. *)
Definition weightedVotes (countByVote : gmap Z Z) : Z :=
  sumList ((λ e : Z * Z, e.1 * e.2) <$> map_to_list countByVote).

(** The net votes of a proposal over all its voters. *)
Definition netTotal (proposalVotes : gmap string Z) : Z :=
  sumList (map_to_list proposalVotes).*2.

(** ** Sums of doubles *)

Section doubles.

Lemma roundDouble_exact (z : Z) : Z.abs z ≤ 2 ^ 53 → roundDouble z = z.
Proof.
  intros Hz. unfold roundDouble. case_bool_decide as He; [done|].
  assert (2 ^ 53 ≤ Z.abs z) as Hge.
  { destruct (decide (Z.abs z < 2 ^ 53)) as [Hlt|]; [|lia].
    destruct (decide (0 < Z.abs z)) as [Hpos|Hzero].
    - apply Z.log2_lt_pow2 in Hlt; [lia|done].
    - replace (Z.abs z) with 0 in He by lia. simpl in He. lia. }
  assert (z = 2 ^ 53 ∨ z = - 2 ^ 53) as [->| ->] by lia; reflexivity.
Qed.

Lemma jsAdd_exact (a b : Z) : Z.abs (a + b) ≤ 2 ^ 53 → jsAdd a b = a + b.
Proof. apply roundDouble_exact. Qed.

End doubles.

(** ** The aggregation step *)

Section aggregation.
Context `{Contracts}.

Lemma decodedVotes_bound tx votes :
  decodedVotes tx = Ok votes → Z.abs votes < 2 ^ 53.
Proof.
  unfold decodedVotes, toNumber.
  destruct (input tx 0) as [i|]; simpl; [|done].
  destruct (abiDecode _) as [params|]; [|done].
  destruct (params !! 3%nat) as [[p|]|]; try done.
  case_bool_decide; [|done]. by intros [= <-].
Qed.

(** A transaction is relevant exactly when it is a vote or a withdrawal. *)
Lemma isRelevant_withdraw tx :
  isWithdraw tx = Ok true → isRelevant tx = Ok true.
Proof.
  unfold isRelevant, isVote, isWithdraw.
  destruct (isSpendie tx); [|discriminate].
  destruct (getFuncSig tx) as [s|e]; simpl; [|discriminate].
  intros Hw. by destruct (bool_decide (s = voteFuncSig)).
Qed.

Lemma isRelevant_vote tx :
  isVote tx = Ok true → isRelevant tx = Ok true.
Proof. unfold isRelevant. by intros ->. Qed.

(** With two different selectors, a vote is not a withdrawal. *)
Lemma isVote_not_withdraw tx :
  voteFuncSig ≠ withdrawFuncSig →
  isVote tx = Ok true → isWithdraw tx = Ok false.
Proof.
  intros Hsig. unfold isVote, isWithdraw.
  destruct (isSpendie tx); [|discriminate].
  destruct (getFuncSig tx) as [s|e]; simpl; [|discriminate].
  intros [= Hv%bool_decide_eq_true]. subst s.
  by rewrite bool_decide_eq_false_2.
Qed.

Lemma inverted_votes_delta (w : bool) (prevVote votes : Z) :
  (if bool_decide (prevVote < 0) && w
   then - (if w then - votes else votes)
   else if w then - votes else votes)
  = delta w prevVote votes.
Proof.
  unfold delta. destruct w; case_bool_decide; simpl; lia.
Qed.

Lemma step_resolved proposals tx st i proposalId warned votes w :
  isRelevant tx = Ok true →
  inputs tx !! 1%nat = Some i →
  getProposalId tx proposals (signer i) = Ok (Some proposalId, warned) →
  decodedVotes tx = Ok votes →
  isWithdraw tx = Ok w →
  step proposals tx st = Ok (aggregated st proposalId (signer i) w votes warned).
Proof.
  intros Hr Hi Hp Hv Hw. unfold step, getVotes, input.
  rewrite Hr. simpl. rewrite Hi. simpl. rewrite Hp. simpl.
  rewrite Hv. simpl. rewrite Hw. simpl.
  rewrite inverted_votes_delta.
  unfold aggregated, netVotes. f_equal.
  destruct (distr st !! proposalId) as [m|] eqn:Hm; simpl.
  - by rewrite Hm.
  - rewrite lookup_insert_eq. simpl. by rewrite insert_insert_eq.
Qed.

Lemma netVotes_aggregated st proposalId voter w votes warned :
  netVotes (aggregated st proposalId voter w votes warned) proposalId voter
  = jsAdd (netVotes st proposalId voter)
      (delta w (netVotes st proposalId voter) votes).
Proof.
  unfold netVotes at 1. unfold aggregated. simpl.
  rewrite lookup_insert_eq. simpl. by rewrite lookup_insert_eq.
Qed.

Lemma entry_aggregated st proposalId voter w votes warned :
  entry (aggregated st proposalId voter w votes warned) proposalId voter
  = Some (jsAdd (netVotes st proposalId voter)
            (delta w (netVotes st proposalId voter) votes)).
Proof.
  unfold entry, aggregated. simpl.
  rewrite lookup_insert_eq. simpl. by rewrite lookup_insert_eq.
Qed.

Lemma getProposalId_unknown proposals tx voter boxAddress :
  getBoxAddress tx voter = Ok boxAddress →
  getProposalByBox proposals boxAddress = None →
  getProposalId tx proposals voter
  = Ok (None, [UnknownProposalVote boxAddress]).
Proof. intros Hb Hp. unfold getProposalId. rewrite Hb. simpl. by rewrite Hp. Qed.

Lemma step_unresolved proposals tx st i warned :
  isRelevant tx = Ok true →
  inputs tx !! 1%nat = Some i →
  getProposalId tx proposals (signer i) = Ok (None, warned) →
  step proposals tx st
  = Ok {| distr := distr st; voters := {[signer i]} ∪ voters st;
          warnings := warnings st ++ warned |}.
Proof.
  intros Hr Hi Hp. unfold step, input.
  rewrite Hr. simpl. rewrite Hi. simpl. by rewrite Hp.
Qed.

Lemma forEach_app proposals txs1 txs2 st :
  forEach proposals (txs1 ++ txs2) st
  = st' ← forEach proposals txs1 st; forEach proposals txs2 st'.
Proof.
  revert st. induction txs1 as [|tx txs1 IH]; intros st; simpl; [done|].
  destruct (step proposals tx st) as [st'|e]; simpl; [apply IH|done].
Qed.

End aggregation.

(** ** Aggregation: the sign rule, skipped and failing transactions *)

Section aggregation_claims.
Context `{Contracts}.


(** C3.  A relevant transaction whose box address matches no proposal
    leaves [distr] as it is, adds its voter to [voters], writes exactly one
    warning that carries the box address, and the loop goes on with the
    transactions that follow. *)
Theorem unresolved_box_skipped proposals tx txs st i boxAddress :
  isRelevant tx = Ok true →
  inputs tx !! 1%nat = Some i →
  getBoxAddress tx (signer i) = Ok boxAddress →
  getProposalByBox proposals boxAddress = None →
  let st' := {| distr := distr st;
                voters := {[signer i]} ∪ voters st;
                warnings := warnings st ++ [UnknownProposalVote boxAddress] |} in
  step proposals tx st = Ok st'
  ∧ forEach proposals (tx :: txs) st = forEach proposals txs st'.
Proof.
  intros Hr Hi Hb Hp st'.
  assert (step proposals tx st = Ok st') as Hstep.
  { apply step_unresolved; [done..|]. by apply getProposalId_unknown. }
  split; [done|]. simpl. by rewrite Hstep.
Qed.

(** C4, amended.  A relevant transaction that resolves to a proposal and
    whose payload the ABI coder rejects makes the callback throw; nothing
    catches it, so the loop ends there whatever follows, also when other
    transactions came before, and [main] ends with the exception: no
    distribution is computed and no CSV is produced. *)
Theorem undecodable_payload_aborts proposals tx st i0 i proposalId warned :
  isRelevant tx = Ok true →
  inputs tx !! 0%nat = Some i0 →
  inputs tx !! 1%nat = Some i →
  getProposalId tx proposals (signer i) = Ok (Some proposalId, warned) →
  abiDecode (bufferToHex (drop 4 (msgData i0))) = None →
  step proposals tx st = Throw DecodeError
  ∧ (∀ before st0 txs,
       forEach proposals before st0 = Ok st →
       forEach proposals (before ++ tx :: txs) st0 = Throw DecodeError)
  ∧ (∀ before txs,
       forEach proposals before initial = Ok st →
       main proposals (before ++ tx :: txs) = Throw DecodeError).
Proof.
  intros Hr Hi0 Hi Hp Hd.
  assert (step proposals tx st = Throw DecodeError) as Hstep.
  { unfold step, getVotes, decodedVotes, input.
    rewrite Hr. simpl. rewrite Hi. simpl. rewrite Hp. simpl.
    rewrite Hi0. simpl. by rewrite Hd. }
  assert (∀ before st0 txs,
            forEach proposals before st0 = Ok st →
            forEach proposals (before ++ tx :: txs) st0 = Throw DecodeError)
    as Hrun.
  { intros before st0 txs Hbefore.
    rewrite forEach_app, Hbefore. simpl. by rewrite Hstep. }
  split; [done|]. split; [done|].
  intros before txs Hbefore. unfold main.
  by rewrite (Hrun before initial txs Hbefore).
Qed.

(** C5, amended.  [getVotes] decodes the payload without its first four
    bytes with the parameter layout of [castBallot], for votes and
    withdrawals alike, takes the 4th parameter and divides it by 10^18,
    rounding towards zero; when that count fits 53 bits, [getVotes]
    returns it for a vote and its opposite for a withdrawal. *)
Theorem getVotes_fourth_parameter tx i0 params p w :
  inputs tx !! 0%nat = Some i0 →
  abiDecode (bufferToHex (drop 4 (msgData i0))) = Some params →
  params !! 3%nat = Some (BigNumber p) →
  Z.abs (p ÷ 10 ^ 18) < 2 ^ 53 →
  isWithdraw tx = Ok w →
  decodedVotes tx = Ok (p ÷ 10 ^ 18)
  ∧ getVotes tx = Ok (if w then - (p ÷ 10 ^ 18) else p ÷ 10 ^ 18).
Proof.
  intros Hi0 Hd Hp Hfit Hw.
  assert (decodedVotes tx = Ok (p ÷ 10 ^ 18)) as Hv.
  { unfold decodedVotes, input. rewrite Hi0. simpl. rewrite Hd, Hp.
    unfold toNumber, factor18. by rewrite bool_decide_eq_true_2. }
  split; [done|]. unfold getVotes. rewrite Hv. simpl. by rewrite Hw.
Qed.

(** C6.  For a vote, the box address is the address of the first output
    with color 4 whose address is not the voter's; for a withdrawal it is
    the hex form of the RIPEMD-160 digest of the script of input 0; and the
    voter the callback uses for both is the signer of input 1. *)
Theorem box_address_derivation tx :
  (∀ voter before o after,
     voteFuncSig ≠ withdrawFuncSig →
     isVote tx = Ok true →
     outputs tx = before ++ o :: after →
     color o = 4 → address o ≠ voter →
     Forall (λ o', ¬ (color o' = 4 ∧ address o' ≠ voter)) before →
     getBoxAddress tx voter = Ok (address o))
  ∧ (∀ voter i0,
       isWithdraw tx = Ok true →
       inputs tx !! 0%nat = Some i0 →
       getBoxAddress tx voter = Ok (bufferToHex (ripemd160 (script i0))))
  ∧ (∀ proposals st st' i,
       isRelevant tx = Ok true →
       inputs tx !! 1%nat = Some i →
       step proposals tx st = Ok st' →
       ∃ boxAddress,
         getBoxAddress tx (signer i) = Ok boxAddress
         ∧ voters st' = {[signer i]} ∪ voters st
         ∧ (getProposalByBox proposals boxAddress = None →
            warnings st' = warnings st ++ [UnknownProposalVote boxAddress])).
Proof.
  split; [|split].
  - intros voter before o after Hsig Hv Hout Hc Ha Hbefore.
    unfold getBoxAddress. rewrite (isVote_not_withdraw tx Hsig Hv). simpl.
    rewrite Hout. clear Hout.
    induction before as [|o' before IH]; simpl.
    + rewrite !bool_decide_eq_true_2 by done. done.
    + apply Forall_cons in Hbefore as [Ho' Hbefore].
      destruct (bool_decide (address o' ≠ voter)) eqn:E1;
        destruct (bool_decide (color o' = 4)) eqn:E2; simpl; auto.
      apply bool_decide_eq_true in E1, E2. by destruct Ho'.
  - intros voter i0 Hw Hi0. unfold getBoxAddress, input.
    rewrite Hw. simpl. by rewrite Hi0.
  - intros proposals st st' i Hr Hi. unfold step, input.
    rewrite Hr. simpl. rewrite Hi. simpl. unfold getProposalId.
    destruct (getBoxAddress tx (signer i)) as [boxAddress|e]; simpl; [|done].
    intros Hstep. exists boxAddress. split; [done|].
    destruct (getProposalByBox proposals boxAddress) as [prop|]; simpl in *.
    + destruct (bool_decide (proposalId prop ≠ "")); simpl in *.
      * destruct (getVotes tx); simpl in *; [|done].
        destruct (isWithdraw tx); simpl in *; [|done].
        injection Hstep as <-. done.
      * injection Hstep as <-. done.
    + injection Hstep as <-. done.
Qed.

End aggregation_claims.

(** ** Order of the transactions *)

Section order.
Context `{Contracts}.

Lemma netVotes_initial proposalId voter : netVotes initial proposalId voter = 0.
Proof. unfold netVotes, initial. simpl. by rewrite lookup_empty. Qed.

Lemma entry_netVotes st proposalId voter z :
  entry st proposalId voter = Some z → netVotes st proposalId voter = z.
Proof.
  unfold entry, netVotes.
  destruct (distr st !! proposalId) as [m|]; simpl; [|done]. by intros ->.
Qed.

(** C9.  Given a withdrawal of [m] and a vote of [n] by one voter on one
    proposal, with [0 < m ≤ n], the sequence withdrawal, withdrawal, vote
    and its permutation vote, withdrawal, withdrawal end in different
    ledgers: in the first the second withdrawal meets a negative total and
    is inverted, in the second no withdrawal is. *)
Theorem aggregation_order_matters proposals v w iv iw proposalId n m warnedV warnedW :
  isVote v = Ok true → isWithdraw v = Ok false →
  isWithdraw w = Ok true →
  inputs v !! 1%nat = Some iv → inputs w !! 1%nat = Some iw →
  signer iv = signer iw →
  getProposalId v proposals (signer iv) = Ok (Some proposalId, warnedV) →
  getProposalId w proposals (signer iw) = Ok (Some proposalId, warnedW) →
  decodedVotes v = Ok n → decodedVotes w = Ok m →
  0 < m ≤ n →
  ∃ txs txs' st st',
    txs ≡ₚ txs' ∧ w ∈ txs
    ∧ forEach proposals txs initial = Ok st
    ∧ forEach proposals txs' initial = Ok st'
    ∧ entry st proposalId (signer iv) = Some n
    ∧ entry st' proposalId (signer iv) = Some (n - 2 * m)
    ∧ distr st ≠ distr st'.
Proof.
  intros Hv Hvw Hw Hiv Hiw Hs Hpv Hpw Hn Hm Hmn.
  pose proof (isRelevant_vote v Hv) as Hrv.
  pose proof (isRelevant_withdraw w Hw) as Hrw.
  set (a := signer iv).
  set (s1 := aggregated initial proposalId a true m warnedW).
  set (s2 := aggregated s1 proposalId a true m warnedW).
  set (s3 := aggregated s2 proposalId a false n warnedV).
  set (t1 := aggregated initial proposalId a false n warnedV).
  set (t2 := aggregated t1 proposalId a true m warnedW).
  set (t3 := aggregated t2 proposalId a true m warnedW).
  pose proof (decodedVotes_bound v n Hn) as Bn.
  pose proof (decodedVotes_bound w m Hm) as Bm.
  assert (netVotes s1 proposalId a = - m) as E1.
  { unfold s1. rewrite netVotes_aggregated, netVotes_initial.
    unfold delta. rewrite bool_decide_eq_false_2 by lia.
    rewrite jsAdd_exact by lia. lia. }
  assert (netVotes s2 proposalId a = 0) as E2.
  { unfold s2. rewrite netVotes_aggregated, E1.
    unfold delta. rewrite bool_decide_eq_true_2 by lia.
    rewrite jsAdd_exact by lia. lia. }
  assert (entry s3 proposalId a = Some n) as E3.
  { unfold s3. rewrite entry_aggregated, E2. unfold delta.
    rewrite jsAdd_exact by lia. f_equal; lia. }
  assert (netVotes t1 proposalId a = n) as F1.
  { unfold t1. rewrite netVotes_aggregated, netVotes_initial.
    unfold delta. rewrite jsAdd_exact by lia. lia. }
  assert (netVotes t2 proposalId a = n - m) as F2.
  { unfold t2. rewrite netVotes_aggregated, F1.
    unfold delta. rewrite bool_decide_eq_false_2 by lia.
    rewrite jsAdd_exact by lia. lia. }
  assert (entry t3 proposalId a = Some (n - 2 * m)) as F3.
  { unfold t3. rewrite entry_aggregated, F2.
    unfold delta. rewrite bool_decide_eq_false_2 by lia.
    rewrite jsAdd_exact by lia. f_equal; lia. }
  exists [w; w; v], [v; w; w], s3, t3.
  split; [|split; [|split; [|split; [|split; [|split]]]]].
  - rewrite (Permutation_swap w v [w]). apply perm_skip, Permutation_swap.
  - apply list_elem_of_here.
  - simpl.
    rewrite (step_resolved proposals w initial iw proposalId warnedW m true)
      by done. simpl. rewrite <- Hs. fold a s1.
    rewrite (step_resolved proposals w s1 iw proposalId warnedW m true)
      by done. simpl. rewrite <- Hs. fold a s2.
    by rewrite (step_resolved proposals v s2 iv proposalId warnedV n false)
      by done.
  - simpl.
    rewrite (step_resolved proposals v initial iv proposalId warnedV n false)
      by done. simpl. fold a t1.
    rewrite (step_resolved proposals w t1 iw proposalId warnedW m true)
      by done. simpl. rewrite <- Hs. fold a t2.
    rewrite (step_resolved proposals w t2 iw proposalId warnedW m true)
      by done. simpl. by rewrite <- Hs.
  - exact E3.
  - exact F3.
  - intros Heq. unfold entry in E3, F3. rewrite Heq, F3 in E3.
    injection E3. lia.
Qed.

End order.

(** ** Counting *)

Section counting.

Lemma sumList_fold_left (l : list Z) (a : Z) :
  fold_left (λ r v, r + v) l a = a + sumList l.
Proof.
  revert a. induction l as [|x l IH]; intros a; simpl; [lia|].
  rewrite IH. unfold sumList. simpl. lia.
Qed.

Lemma sumList_Permutation (l1 l2 : list Z) :
  l1 ≡ₚ l2 → sumList l1 = sumList l2.
Proof.
  unfold sumList. induction 1; simpl; lia.
Qed.

Lemma totalVotes_sumList (m : gmap Z Z) :
  totalVotes m = sumList (map_to_list m).*2.
Proof. unfold totalVotes. rewrite sumList_fold_left. lia. Qed.

Lemma totalVotes_empty : totalVotes ∅ = 0.
Proof. by rewrite totalVotes_sumList, map_to_list_empty. Qed.

Lemma totalVotes_insert_fresh (m : gmap Z Z) k v :
  m !! k = None → totalVotes (<[k := v]> m) = v + totalVotes m.
Proof.
  intros Hk. rewrite !totalVotes_sumList.
  by rewrite (sumList_Permutation _ ((k, v) :: map_to_list m).*2)
    by (by rewrite map_to_list_insert).
Qed.

Lemma totalVotes_insert (m : gmap Z Z) k v :
  totalVotes (<[k := v]> m) = totalVotes m - default 0 (m !! k) + v.
Proof.
  destruct (m !! k) as [x|] eqn:Hk; simpl.
  - rewrite <- (insert_delete_id m k x) at 2 by done.
    rewrite <- insert_delete_eq.
    rewrite !totalVotes_insert_fresh by apply lookup_delete_eq. lia.
  - rewrite totalVotes_insert_fresh by done. lia.
Qed.

(** The body of the [reduce] in [countByNumberOfVotes]. *)
Lemma count_fold_total (arr : list (string * Z)) (r : gmap Z Z) :
  totalVotes (fold_left (λ r v, <[v.2 := default 0 (r !! v.2) + 1]> r) arr r)
  = totalVotes r + Z.of_nat (length arr).
Proof.
  revert r. induction arr as [|v arr IH]; intros r; simpl; [lia|].
  rewrite IH, totalVotes_insert. lia.
Qed.

Lemma count_fold_lookup (arr : list (string * Z)) (r : gmap Z Z) k :
  default 0 (fold_left (λ r v, <[v.2 := default 0 (r !! v.2) + 1]> r) arr r !! k)
  = default 0 (r !! k) + Z.of_nat (length (filter (λ e, e.2 = k) arr)).
Proof.
  revert r. induction arr as [|v arr IH]; intros r; simpl; [lia|].
  rewrite IH, filter_cons. destruct (decide (v.2 = k)) as [->|Hne]; simpl.
  - rewrite lookup_insert_eq. simpl. lia.
  - by rewrite lookup_insert_ne.
Qed.

Lemma count_fold_positive (arr : list (string * Z)) (r : gmap Z Z) :
  map_Forall (λ _ c, 0 < c) r →
  map_Forall (λ _ c, 0 < c)
    (fold_left (λ r v, <[v.2 := default 0 (r !! v.2) + 1]> r) arr r).
Proof.
  revert r. induction arr as [|v arr IH]; intros r Hr; simpl; [done|].
  apply IH. apply map_Forall_insert_2; [|done].
  destruct (r !! v.2) as [c|] eqn:Hc; simpl; [|lia].
  specialize (Hr _ _ Hc). simpl in Hr. lia.
Qed.

Lemma countByNumberOfVotes_total arr :
  totalVotes (countByNumberOfVotes arr) = Z.of_nat (length arr).
Proof.
  unfold countByNumberOfVotes. by rewrite count_fold_total, totalVotes_empty.
Qed.

Lemma countByNumberOfVotes_lookup arr k :
  default 0 (countByNumberOfVotes arr !! k)
  = Z.of_nat (length (filter (λ e, e.2 = k) arr)).
Proof.
  unfold countByNumberOfVotes. by rewrite count_fold_lookup, lookup_empty.
Qed.

Lemma countByNumberOfVotes_positive arr :
  map_Forall (λ _ c, 0 < c) (countByNumberOfVotes arr).
Proof. apply count_fold_positive, map_Forall_empty. Qed.

(** X21.  The order in which [Object.entries] lists the voters does not
    matter: two lists of entries that are permutations of each other give
    the same histogram. *)
Lemma countByNumberOfVotes_Permutation arr1 arr2 :
  arr1 ≡ₚ arr2 → countByNumberOfVotes arr1 = countByNumberOfVotes arr2.
Proof.
  intros Hp. apply map_eq. intros k.
  pose proof (countByNumberOfVotes_lookup arr1 k) as H1.
  pose proof (countByNumberOfVotes_lookup arr2 k) as H2.
  assert (length (filter (λ e : string * Z, e.2 = k) arr1)
          = length (filter (λ e : string * Z, e.2 = k) arr2)) as Hlen
    by (by rewrite Hp).
  rewrite Hlen, <- H2 in H1.
  pose proof (countByNumberOfVotes_positive arr1) as P1.
  pose proof (countByNumberOfVotes_positive arr2) as P2.
  destruct (countByNumberOfVotes arr1 !! k) as [c1|] eqn:E1;
    destruct (countByNumberOfVotes arr2 !! k) as [c2|] eqn:E2;
    simpl in H1; try done.
  - by subst.
  - specialize (P1 _ _ E1). simpl in P1. lia.
  - specialize (P2 _ _ E2). simpl in P2. lia.
Qed.

Lemma filter_map_to_list_length (P : string * Z → Prop)
    `{!∀ x, Decision (P x)} (m : gmap string Z) :
  length (filter P (map_to_list m)) = size (filter P m).
Proof.
  induction m as [|k x m Hk IH] using map_ind.
  - by rewrite map_filter_empty, map_to_list_empty, map_size_empty.
  - rewrite map_to_list_insert by done. rewrite filter_cons.
    destruct (decide (P (k, x))) as [HP|HP]; simpl.
    + rewrite map_filter_insert_True by done.
      rewrite map_size_insert_None; [by rewrite IH|].
      apply map_lookup_filter_None. by left.
    + rewrite map_filter_insert_not'; [done|done|].
      intros y Hy. congruence.
Qed.

End counting.

(** ** The distribution *)

Section distribution.

Lemma summarize_total st proposalId :
  totalVotes (summarize st proposalId).2 = Z.of_nat (size (voters st)).
Proof.
  unfold summarize. simpl. rewrite totalVotes_insert. lia.
Qed.

Lemma summarize_zero st proposalId :
  (summarize st proposalId).2 !! 0
  = Some (Z.of_nat (size (filter (λ e, e.2 = 0)
                            (default ∅ (distr st !! proposalId))))
          + (Z.of_nat (size (voters st))
             - Z.of_nat (size (default ∅ (distr st !! proposalId))))).
Proof.
  unfold summarize. simpl. rewrite lookup_insert_eq. f_equal.
  rewrite countByNumberOfVotes_lookup, countByNumberOfVotes_total.
  rewrite filter_map_to_list_length, length_map_to_list. lia.
Qed.

Lemma groupedDistr_Forall (P : string * gmap Z Z → Prop) st :
  (∀ proposalId, P (summarize st proposalId)) → Forall P (groupedDistr st).
Proof.
  intros HP. unfold groupedDistr. apply Forall_fmap, Forall_forall.
  intros proposalId _. apply HP.
Qed.

(** C2.  In every element of [groupedDistr] the counts add up to the number
    of voters. *)
Theorem bucket_counts_sum_to_voters st :
  Forall (λ g, totalVotes g.2 = Z.of_nat (size (voters st))) (groupedDistr st).
Proof. apply groupedDistr_Forall, summarize_total. Qed.

(** C7.  Every proposal of the ledger has an element in [groupedDistr],
    and in it the bucket of 0 exists and holds the number of voters whose
    entry for the proposal is 0, plus the number of voters less the number
    of entries of the proposal; the same holds in every element of
    [groupedDistr]. *)
Theorem zero_bucket_count st :
  Forall (λ g,
    g.2 !! 0
    = Some (Z.of_nat (size (filter (λ e, e.2 = 0)
                              (default ∅ (distr st !! g.1))))
            + (Z.of_nat (size (voters st))
               - Z.of_nat (size (default ∅ (distr st !! g.1))))))
    (groupedDistr st)
  ∧ ∀ proposalId proposalVotes,
      distr st !! proposalId = Some proposalVotes →
      ∃ countByVote,
        (proposalId, countByVote) ∈ groupedDistr st
        ∧ countByVote !! 0
          = Some (Z.of_nat (size (filter (λ e, e.2 = 0) proposalVotes))
                  + (Z.of_nat (size (voters st))
                     - Z.of_nat (size proposalVotes))).
Proof.
  split.
  - apply groupedDistr_Forall. intros proposalId. apply summarize_zero.
  - intros proposalId proposalVotes Hvotes.
    exists (summarize st proposalId).2. split.
    + unfold groupedDistr.
      apply (list_elem_of_fmap_2' (summarize st) _ proposalId); [|done].
      unfold sortedKeys. rewrite merge_sort_Permutation.
      apply (list_elem_of_fmap_2' fst _ (proposalId, proposalVotes)); [|done].
      by apply elem_of_map_to_list.
    + rewrite summarize_zero, Hvotes. done.
Qed.

End distribution.

(** ** Voters are recorded before their votes *)

Section recorded.
Context `{Contracts}.

Lemma votersRecorded_initial : votersRecorded initial.
Proof. intros proposalId m. unfold initial. simpl. by rewrite lookup_empty. Qed.

Lemma votersRecorded_aggregated st proposalId voter w votes warned :
  votersRecorded st →
  votersRecorded (aggregated st proposalId voter w votes warned).
Proof.
  intros Hst pid m. unfold aggregated. simpl.
  destruct (decide (proposalId = pid)) as [->|Hne].
  - rewrite lookup_insert_eq. intros [= <-]. rewrite dom_insert.
    apply union_mono_l.
    destruct (distr st !! pid) as [m|] eqn:Hm; simpl.
    + by apply (Hst _ _ Hm).
    + rewrite dom_empty. apply empty_subseteq.
  - rewrite lookup_insert_ne by done. intros Hm.
    by apply union_subseteq_r', (Hst _ _ Hm).
Qed.

Lemma votersRecorded_step proposals tx st st' :
  votersRecorded st → step proposals tx st = Ok st' → votersRecorded st'.
Proof.
  intros Hst.
  destruct (isRelevant tx) as [[]|e] eqn:Hr;
    [|by unfold step; rewrite Hr; intros [= <-]|by unfold step; rewrite Hr].
  destruct (inputs tx !! 1%nat) as [i|] eqn:Hi;
    [|by unfold step, input; rewrite Hr; simpl; rewrite Hi].
  destruct (getProposalId tx proposals (signer i))
    as [[[proposalId|] warned]|e] eqn:Hp.
  - destruct (decodedVotes tx) as [votes|e] eqn:Hv.
    + destruct (isWithdraw tx) as [w|e] eqn:Hw.
      * rewrite (step_resolved proposals tx st i proposalId warned votes w)
          by done.
        intros [= <-]. by apply votersRecorded_aggregated.
      * unfold step, getVotes, input. rewrite Hr. simpl. rewrite Hi. simpl.
        rewrite Hp. simpl. rewrite Hv. simpl. by rewrite Hw.
    + unfold step, getVotes, input. rewrite Hr. simpl. rewrite Hi. simpl.
      rewrite Hp. simpl. by rewrite Hv.
  - rewrite (step_unresolved proposals tx st i warned) by done.
    intros [= <-]. intros pid m. simpl. intros Hm.
    by apply union_subseteq_r', (Hst _ _ Hm).
  - unfold step, input. rewrite Hr. simpl. rewrite Hi. simpl. by rewrite Hp.
Qed.

Lemma votersRecorded_forEach proposals txs st st' :
  votersRecorded st → forEach proposals txs st = Ok st' → votersRecorded st'.
Proof.
  revert st. induction txs as [|tx txs IH]; intros st Hst; simpl.
  - by intros [= <-].
  - destruct (step proposals tx st) as [st1|] eqn:Hstep; simpl; [|done].
    apply IH. by eapply votersRecorded_step.
Qed.

Lemma summarize_nonnegative st proposalId :
  votersRecorded st →
  map_Forall (λ _ c, 0 ≤ c) (summarize st proposalId).2.
Proof.
  intros Hst. unfold summarize. simpl.
  set (votes := default ∅ (distr st !! proposalId)).
  assert (size votes ≤ size (voters st))%nat as Hsize.
  { rewrite <- size_dom. apply subseteq_size. unfold votes.
    destruct (distr st !! proposalId) as [m|] eqn:Hm; simpl.
    - by apply (Hst _ _ Hm).
    - rewrite dom_empty. apply empty_subseteq. }
  apply map_Forall_insert_2.
  - rewrite countByNumberOfVotes_lookup, countByNumberOfVotes_total.
    rewrite length_map_to_list. lia.
  - intros k c Hk.
    pose proof (countByNumberOfVotes_positive _ _ _ Hk) as Hc.
    simpl in Hc. lia.
Qed.

(** C10.  After any run that ends normally, every count of every element
    of [groupedDistr] is at least 0: the voters with an entry for a
    proposal are among [voters]. *)
Theorem counts_nonnegative proposals txs st :
  forEach proposals txs initial = Ok st →
  votersRecorded st
  ∧ Forall (λ g, map_Forall (λ _ c, 0 ≤ c) g.2) (groupedDistr st).
Proof.
  intros Hrun.
  assert (votersRecorded st) as Hst
    by (eapply votersRecorded_forEach; [apply votersRecorded_initial|done]).
  split; [done|]. apply groupedDistr_Forall. intros proposalId.
  by apply summarize_nonnegative.
Qed.

End recorded.

(** ** The order of the output *)

Section output_order.

#[local] Instance byVotes_total : Total byVotes.
Proof. intros a b. unfold byVotes. lia. Qed.

#[local] Instance byVotes_trans : Transitive byVotes.
Proof. intros a b c. unfold byVotes. lia. Qed.










End output_order.

(** ** Resolution of the box address *)

Section resolution.
Context `{Contracts}.

Lemma getProposalByBox_Some proposals boxAddress prop :
  getProposalByBox proposals boxAddress = Some prop →
  prop ∈ proposals
  ∧ (yesBoxAddress prop = boxAddress ∨ noBoxAddress prop = boxAddress).
Proof.
  unfold getProposalByBox. intros [Hin Hp]%find_some.
  split; [by apply list_elem_of_In|].
  apply orb_true_iff in Hp as [Hp|Hp]; apply bool_decide_eq_true in Hp; auto.
Qed.

Lemma getProposalByBox_None proposals boxAddress :
  getProposalByBox proposals boxAddress = None ↔
  ∀ prop, prop ∈ proposals →
    yesBoxAddress prop ≠ boxAddress ∧ noBoxAddress prop ≠ boxAddress.
Proof.
  unfold getProposalByBox. split.
  - intros Hnone prop Hin%list_elem_of_In.
    pose proof (find_none _ _ Hnone prop Hin) as Hp. simpl in Hp.
    apply orb_false_iff in Hp as [Hy Hn].
    by apply bool_decide_eq_false in Hy, Hn.
  - intros Hall.
    destruct (find _ proposals) as [prop|] eqn:Hfind; [|done].
    apply find_some in Hfind as [Hin%list_elem_of_In Hp].
    destruct (Hall prop Hin) as [Hy Hn].
    apply orb_true_iff in Hp as [Hp|Hp]; by apply bool_decide_eq_true in Hp.
Qed.

Lemma getProposalId_inv tx proposals voter result warned :
  getProposalId tx proposals voter = Ok (result, warned) →
  ∃ boxAddress,
    getBoxAddress tx voter = Ok boxAddress
    ∧ match result with
      | Some pid =>
          warned = [] ∧ pid ≠ ""
          ∧ ∃ prop, prop ∈ proposals ∧ proposalId prop = pid
              ∧ (yesBoxAddress prop = boxAddress
                 ∨ noBoxAddress prop = boxAddress)
      | None => warned = [UnknownProposalVote boxAddress]
      end.
Proof.
  unfold getProposalId.
  destruct (getBoxAddress tx voter) as [boxAddress|e]; simpl; [|done].
  intros Hres. exists boxAddress. split; [done|].
  destruct (getProposalByBox proposals boxAddress) as [prop|] eqn:Hprop.
  - case_bool_decide as Hid; injection Hres as <- <-; [|done].
    apply getProposalByBox_Some in Hprop as [Hin Hbox].
    split; [done|]. split; [done|]. by exists prop.
  - by injection Hres as <- <-.
Qed.

(** X1.  Whatever [getProposalId] returns, it has read a box address; an
    id it returns is the non-empty id of a proposal of the registry that
    owns that box, and comes without a warning; when it returns nothing it
    has written one warning, and that warning carries the box address. *)
Theorem getProposalId_resolution tx proposals voter result warned :
  getProposalId tx proposals voter = Ok (result, warned) →
  ∃ boxAddress,
    getBoxAddress tx voter = Ok boxAddress
    ∧ match result with
      | Some pid =>
          warned = [] ∧ pid ≠ ""
          ∧ ∃ prop, prop ∈ proposals ∧ proposalId prop = pid
              ∧ (yesBoxAddress prop = boxAddress
                 ∨ noBoxAddress prop = boxAddress)
      | None => warned = [UnknownProposalVote boxAddress]
      end.
Proof. apply getProposalId_inv. Qed.

(** The three ways in which the callback returns normally. *)
Lemma step_inv proposals tx st st' :
  step proposals tx st = Ok st' →
  (isRelevant tx = Ok false ∧ st' = st)
  ∨ (∃ i warned,
       isRelevant tx = Ok true ∧ inputs tx !! 1%nat = Some i
       ∧ getProposalId tx proposals (signer i) = Ok (None, warned)
       ∧ st' = {| distr := distr st; voters := {[signer i]} ∪ voters st;
                  warnings := warnings st ++ warned |})
  ∨ (∃ i pid warned votes w,
       isRelevant tx = Ok true ∧ inputs tx !! 1%nat = Some i
       ∧ getProposalId tx proposals (signer i) = Ok (Some pid, warned)
       ∧ decodedVotes tx = Ok votes ∧ isWithdraw tx = Ok w
       ∧ st' = aggregated st pid (signer i) w votes warned).
Proof.
  destruct (isRelevant tx) as [[]|e] eqn:Hr;
    [|by unfold step; rewrite Hr; intros [= <-]; left
     |by unfold step; rewrite Hr].
  destruct (inputs tx !! 1%nat) as [i|] eqn:Hi;
    [|by unfold step, input; rewrite Hr; simpl; rewrite Hi].
  destruct (getProposalId tx proposals (signer i))
    as [[[pid|] warned]|e] eqn:Hp.
  - destruct (decodedVotes tx) as [votes|e] eqn:Hv.
    + destruct (isWithdraw tx) as [w|e] eqn:Hw.
      * rewrite (step_resolved proposals tx st i pid warned votes w) by done.
        intros [= <-]. right. right. by exists i, pid, warned, votes, w.
      * unfold step, getVotes, input. rewrite Hr. simpl. rewrite Hi. simpl.
        rewrite Hp. simpl. rewrite Hv. simpl. by rewrite Hw.
    + unfold step, getVotes, input. rewrite Hr. simpl. rewrite Hi. simpl.
      rewrite Hp. simpl. by rewrite Hv.
  - rewrite (step_unresolved proposals tx st i warned) by done.
    intros [= <-]. right. left. by exists i, warned.
  - unfold step, input. rewrite Hr. simpl. rewrite Hi. simpl. by rewrite Hp.
Qed.

End resolution.

(** ** Transactions that are ignored, and transactions that end the run *)

Section ignored_and_fatal.
Context `{Contracts}.

(** X2.  A transaction that is not of type 13, or whose first four payload
    bytes are neither selector, changes nothing: the loop goes on from the
    same state.  A transaction that is not of type 13 is not even looked
    into. *)
Theorem irrelevant_tx_ignored proposals tx txs st :
  type tx ≠ 13
  ∨ (∃ i0, inputs tx !! 0%nat = Some i0
       ∧ toHex (take 4 (msgData i0)) ≠ voteFuncSig
       ∧ toHex (take 4 (msgData i0)) ≠ withdrawFuncSig) →
  step proposals tx st = Ok st
  ∧ forEach proposals (tx :: txs) st = forEach proposals txs st.
Proof.
  intros Hcase.
  assert (isRelevant tx = Ok false) as Hr.
  { unfold isRelevant, isVote, isWithdraw, isSpendie, getFuncSig, input.
    destruct Hcase as [Htype|(i0 & Hi0 & Hv & Hw)].
    - by rewrite bool_decide_eq_false_2.
    - rewrite Hi0. case_bool_decide; simpl; [|done].
      by rewrite !bool_decide_eq_false_2. }
  assert (step proposals tx st = Ok st) as Hstep
    by (by unfold step; rewrite Hr).
  split; [done|]. simpl. by rewrite Hstep.
Qed.

(** X3.  A transaction of type 13 without inputs, and a vote or withdrawal
    with a single input, end the run with a [TypeError]: the callback
    reads [inputs[0].msgData] and [inputs[1].signer] unguarded. *)
Theorem too_few_inputs_abort proposals tx txs st :
  type tx = 13 →
  inputs tx = [] ∨ (isRelevant tx = Ok true ∧ length (inputs tx) = 1%nat) →
  step proposals tx st = Throw TypeError
  ∧ forEach proposals (tx :: txs) st = Throw TypeError.
Proof.
  intros Htype Hcase.
  assert (step proposals tx st = Throw TypeError) as Hstep.
  { destruct Hcase as [Hnil|[Hr Hlen]].
    - unfold step, isRelevant, isVote, isSpendie, getFuncSig, input.
      rewrite bool_decide_eq_true_2 by done. by rewrite Hnil.
    - unfold step, input. rewrite Hr. simpl.
      destruct (inputs tx) as [|i0 [|i1 rest]]; simpl in *; done. }
  split; [done|]. simpl. by rewrite Hstep.
Qed.


End ignored_and_fatal.

(** ** What a run keeps *)

Section run_invariants.
Context `{Contracts}.

Lemma entry_aggregated_other st pid voter w votes warned pid' voter' :
  (pid', voter') ≠ (pid, voter) →
  entry (aggregated st pid voter w votes warned) pid' voter'
  = entry st pid' voter'.
Proof.
  intros Hne. unfold entry, aggregated. simpl.
  destruct (decide (pid' = pid)) as [->|Hpid].
  - rewrite lookup_insert_eq. simpl.
    rewrite lookup_insert_ne by congruence.
    by destruct (distr st !! pid).
  - by rewrite lookup_insert_ne.
Qed.

Lemma entry_aggregated_is_Some st pid voter w votes warned pid' voter' :
  is_Some (entry st pid' voter') →
  is_Some (entry (aggregated st pid voter w votes warned) pid' voter').
Proof.
  intros Hsome.
  destruct (decide ((pid', voter') = (pid, voter))) as [[= -> ->]|Hne].
  - rewrite entry_aggregated. eauto.
  - by rewrite entry_aggregated_other.
Qed.

(** X5.  A run never takes anything back: the voters it started with are
    still voters, the warnings written before are a prefix of the warnings
    at the end, and an entry of the ledger that existed still exists. *)
Theorem run_only_adds proposals txs st st' :
  forEach proposals txs st = Ok st' →
  voters st ⊆ voters st'
  ∧ warnings st `prefix_of` warnings st'
  ∧ ∀ pid voter, is_Some (entry st pid voter) → is_Some (entry st' pid voter).
Proof.
  revert st. induction txs as [|tx txs IH]; intros st; simpl.
  - intros [= <-]. done.
  - destruct (step proposals tx st) as [st1|] eqn:Hstep; simpl; [|done].
    intros Hrun. destruct (IH _ Hrun) as (Hv & Hw & He).
    apply step_inv in Hstep
      as [[_ ->]|[(i & warned & _ & _ & _ & ->)
                 |(i & pid & warned & votes & w & _ & _ & _ & _ & _ & ->)]];
      [done|..]; simpl in *.
    + split; [by etrans; [apply union_subseteq_r|]|].
      split; [by etrans; [apply prefix_app_r|]|]. done.
    + split; [by etrans; [apply union_subseteq_r|]|].
      split; [by etrans; [apply prefix_app_r|]|].
      intros pid' voter' Hsome. by apply He, entry_aggregated_is_Some.
Qed.

(** X6.  A transaction adds at most one voter and writes at most one
    warning, so a run adds no more voters and no more warnings than it has
    transactions. *)
Theorem run_adds_at_most_one_each proposals txs st st' :
  forEach proposals txs st = Ok st' →
  (size (voters st') ≤ size (voters st) + length txs)%nat
  ∧ (length (warnings st') ≤ length (warnings st) + length txs)%nat.
Proof.
  revert st. induction txs as [|tx txs IH]; intros st; simpl.
  - intros [= <-]. lia.
  - destruct (step proposals tx st) as [st1|] eqn:Hstep; simpl; [|done].
    intros Hrun. destruct (IH _ Hrun) as [Hv Hw].
    apply step_inv in Hstep
      as [[_ ->]|[(i & warned & _ & _ & Hp & ->)
                 |(i & pid & warned & votes & w & _ & _ & Hp & _ & _ & ->)]];
      [lia|..]; simpl in *;
      apply getProposalId_inv in Hp as (box & _ & Hres);
      pose proof (size_union_alt {[signer i]} (voters st)) as Hu;
      pose proof (subseteq_size (voters st ∖ {[signer i]}) (voters st)
                    (subseteq_difference_l _ _ _ (reflexivity _))) as Hd;
      rewrite size_singleton in Hu;
      rewrite length_app in Hw.
    + rewrite Hres in Hw. simpl in Hw. lia.
    + destruct Hres as [-> _]. simpl in Hw. lia.
Qed.

Lemma ledgerKnown_initial proposals : ledgerKnown proposals initial.
Proof. intros pid m. unfold initial. simpl. by rewrite lookup_empty. Qed.

Lemma ledgerKnown_step proposals tx st st' :
  ledgerKnown proposals st → step proposals tx st = Ok st' →
  ledgerKnown proposals st'.
Proof.
  intros Hst Hstep.
  apply step_inv in Hstep
    as [[_ ->]|[(i & warned & _ & _ & _ & ->)
               |(i & pid & warned & votes & w & _ & _ & Hp & _ & _ & ->)]];
    [done|done|].
  apply getProposalId_inv in Hp
    as (box & _ & _ & Hid & prop & Hin & Hprop & _).
  intros pid' m. unfold aggregated. simpl.
  destruct (decide (pid = pid')) as [<-|Hne].
  - rewrite lookup_insert_eq. intros [= <-].
    split; [apply insert_non_empty|]. split; [done|]. by exists prop.
  - rewrite lookup_insert_ne by done. apply Hst.
Qed.

(** X7.  After a run that ends normally, every proposal of the ledger has
    a non-empty id that belongs to a proposal of the registry, and has at
    least one entry: nothing is aggregated under an unknown proposal. *)
Theorem ledger_holds_known_proposals proposals txs st :
  forEach proposals txs initial = Ok st → ledgerKnown proposals st.
Proof.
  assert (∀ st0, ledgerKnown proposals st0 →
            forEach proposals txs st0 = Ok st → ledgerKnown proposals st)
    as Hgen.
  { induction txs as [|tx txs IH]; intros st0 Hst0; simpl.
    - by intros [= <-].
    - destruct (step proposals tx st0) as [st1|] eqn:Hstep; simpl; [|done].
      apply IH. by eapply ledgerKnown_step. }
  apply Hgen, ledgerKnown_initial.
Qed.

Lemma step_voters proposals tx st st' voter :
  step proposals tx st = Ok st' →
  voter ∈ voters st' ↔ voter ∈ voters st ∨ castBy tx voter.
Proof.
  intros Hstep. unfold castBy.
  apply step_inv in Hstep
    as [[Hr ->]|[(i & warned & Hr & Hi & _ & ->)
                |(i & pid & warned & votes & w & Hr & Hi & _ & _ & _ & ->)]];
    simpl.
  - split; [auto|]. intros [?|[Hr' _]]; [done|congruence].
  - rewrite elem_of_union, elem_of_singleton. split.
    + intros [->|?]; [right|by left]. split; [done|]. by exists i.
    + intros [?|[_ (i' & Hi' & <-)]]; [by right|left]. congruence.
  - rewrite elem_of_union, elem_of_singleton. split.
    + intros [->|?]; [right|by left]. split; [done|]. by exists i.
    + intros [?|[_ (i' & Hi' & <-)]]; [by right|left]. congruence.
Qed.

(** X8.  After a run that ends normally, the voters are exactly those of
    the start and the signers of input 1 of the votes and withdrawals of
    the run, resolved or not. *)
Theorem voters_are_the_signers proposals txs st st' voter :
  forEach proposals txs st = Ok st' →
  voter ∈ voters st' ↔
  voter ∈ voters st ∨ ∃ tx, tx ∈ txs ∧ castBy tx voter.
Proof.
  revert st. induction txs as [|tx txs IH]; intros st; simpl.
  - intros [= <-]. split; [auto|]. intros [?|(tx & Hin & _)]; [done|].
    by apply elem_of_nil in Hin.
  - destruct (step proposals tx st) as [st1|] eqn:Hstep; simpl; [|done].
    intros Hrun. rewrite (IH _ Hrun), (step_voters _ _ _ _ _ Hstep).
    split.
    + intros [[?|Hc]|(tx' & Hin & Hc)]; [by left|right..].
      * exists tx. split; [apply list_elem_of_here|done].
      * exists tx'. split; [by apply list_elem_of_further|done].
    + intros [?|(tx' & Hin & Hc)]; [by left; left|].
      apply elem_of_cons in Hin as [->|Hin]; [by left; right|].
      right. by exists tx'.
Qed.

Lemma step_entry_other proposals tx st st' pid voter :
  step proposals tx st = Ok st' →
  ¬ castBy tx voter →
  entry st' pid voter = entry st pid voter.
Proof.
  intros Hstep Hnot.
  apply step_inv in Hstep
    as [[_ ->]|[(i & warned & _ & _ & _ & ->)
               |(i & pid' & warned & votes & w & Hr & Hi & _ & _ & _ & ->)]];
    [done|done|].
  apply entry_aggregated_other. intros [= -> ->]. apply Hnot.
  split; [done|]. by exists i.
Qed.

(** X9.  The entries of a voter are touched only by that voter's own
    transactions: a run in which no vote or withdrawal has the voter as
    signer of input 1 leaves every entry of the voter as it was. *)
Theorem others_leave_entries_alone proposals txs st st' voter :
  forEach proposals txs st = Ok st' →
  Forall (λ tx, ¬ castBy tx voter) txs →
  ∀ pid, entry st' pid voter = entry st pid voter.
Proof.
  revert st. induction txs as [|tx txs IH]; intros st; simpl.
  - by intros [= <-].
  - destruct (step proposals tx st) as [st1|] eqn:Hstep; simpl; [|done].
    intros Hrun [Hnot Hrest]%Forall_cons pid.
    rewrite (IH _ Hrun Hrest). by eapply step_entry_other.
Qed.

End run_invariants.

(** ** Pairs of transactions *)

Section pairs.
Context `{Contracts}.

Lemma forEach_two_resolved proposals t1 t2 st i1 i2 p1 p2 wd1 wd2 x1 x2 w1 w2 :
  isRelevant t1 = Ok true → isRelevant t2 = Ok true →
  inputs t1 !! 1%nat = Some i1 → inputs t2 !! 1%nat = Some i2 →
  getProposalId t1 proposals (signer i1) = Ok (Some p1, wd1) →
  getProposalId t2 proposals (signer i2) = Ok (Some p2, wd2) →
  decodedVotes t1 = Ok x1 → decodedVotes t2 = Ok x2 →
  isWithdraw t1 = Ok w1 → isWithdraw t2 = Ok w2 →
  forEach proposals [t1; t2] st
  = Ok (aggregated (aggregated st p1 (signer i1) w1 x1 wd1)
          p2 (signer i2) w2 x2 wd2).
Proof.
  intros Hr1 Hr2 Hi1 Hi2 Hp1 Hp2 Hx1 Hx2 Hw1 Hw2. simpl.
  rewrite (step_resolved proposals t1 st i1 p1 wd1 x1 w1) by done. simpl.
  by rewrite (step_resolved proposals t2 _ i2 p2 wd2 x2 w2) by done.
Qed.

Lemma delta_vote (prevVote votes : Z) : delta false prevVote votes = votes.
Proof. done. Qed.


(** X11.  When the vote is on the other side and does not outweigh the
    position ([x] negative, [-x] at most [prevVote], [prevVote] at most
    2^53, ordinary keys), the withdrawal of [|x|] does not undo it: the
    total stays at or above 0, the withdrawal is subtracted, and the entry
    ends at [prevVote + 2 * x]. *)
Theorem opposite_vote_not_undone
    proposals v w st iv iw pid x warnedV warnedW :
  isVote v = Ok true → isWithdraw v = Ok false →
  isWithdraw w = Ok true →
  inputs v !! 1%nat = Some iv → inputs w !! 1%nat = Some iw →
  signer iv = signer iw →
  getProposalId v proposals (signer iv) = Ok (Some pid, warnedV) →
  getProposalId w proposals (signer iw) = Ok (Some pid, warnedW) →
  decodedVotes v = Ok x → decodedVotes w = Ok (Z.abs x) →
  ordinaryKey pid → ordinaryKey (signer iv) →
  x < 0 → - x ≤ netVotes st pid (signer iv) →
  netVotes st pid (signer iv) ≤ 2 ^ 53 →
  ∃ st',
    forEach proposals [v; w] st = Ok st'
    ∧ entry st' pid (signer iv) = Some (netVotes st pid (signer iv) + 2 * x)
    ∧ entry st' pid (signer iv) ≠ Some (netVotes st pid (signer iv)).
Proof.
  intros Hv Hvw Hw Hiv Hiw Hs Hpv Hpw Hx Hax _ _ Hneg Hle Hfit.
  eexists. split.
  - apply (forEach_two_resolved proposals v w st iv iw pid pid
             warnedV warnedW x (Z.abs x) false true);
      auto using isRelevant_vote, isRelevant_withdraw.
  - rewrite <- Hs, entry_aggregated, netVotes_aggregated.
    rewrite !delta_vote, (jsAdd_exact _ x) by lia.
    unfold delta. rewrite bool_decide_eq_false_2 by lia.
    rewrite jsAdd_exact by lia.
    split; [f_equal; lia|]. intros [= Heq]. lia.
Qed.



End pairs.

(** ** Selectors *)

Section selectors.
Context `{Contracts}.

Lemma hexValue_hexDigit (n : N) :
  (n < 16)%N → Demo.hexValue (hexDigit n) = Some (Z.of_N n).
Proof.
  intros Hn. destruct n as [|p]; [reflexivity|].
  do 5 (destruct p as [p|p|]; try reflexivity; try lia).
Qed.

Lemma hexDigit_inj (n m : N) :
  (n < 16)%N → (m < 16)%N → hexDigit n = hexDigit m → n = m.
Proof.
  intros Hn Hm Heq.
  pose proof (hexValue_hexDigit n Hn) as En.
  pose proof (hexValue_hexDigit m Hm) as Em.
  rewrite Heq, Em in En. injection En. lia.
Qed.

Lemma byte_of_nibbles (x y : byte) :
  (Byte.to_N x / 16 = Byte.to_N y / 16)%N →
  (Byte.to_N x `mod` 16 = Byte.to_N y `mod` 16)%N →
  x = y.
Proof.
  intros Hhi Hlo.
  assert (Byte.to_N x = Byte.to_N y) as Heq.
  { rewrite (N.div_mod' (Byte.to_N x) 16), (N.div_mod' (Byte.to_N y) 16).
    by rewrite Hhi, Hlo. }
  pose proof (Byte.of_to_N x) as Hx. pose proof (Byte.of_to_N y) as Hy.
  rewrite Heq, Hy in Hx. by injection Hx.
Qed.

Lemma toHex_inj (a b : list byte) : toHex a = toHex b → a = b.
Proof.
  revert b. induction a as [|x a IH]; intros [|y b]; simpl; try done.
  intros [= Hhi Hlo Hrest].
  pose proof (Byte.to_N_bounded x) as Hx.
  pose proof (Byte.to_N_bounded y) as Hy.
  f_equal; [|by apply IH].
  apply byte_of_nibbles.
  - apply hexDigit_inj; [apply N.Div0.div_lt_upper_bound; lia..|done].
  - apply hexDigit_inj; [by apply N.mod_lt..|done].
Qed.

Lemma toHex_length (b : list byte) :
  String.length (toHex b) = (2 * length b)%nat.
Proof. induction b as [|x b IH]; simpl; [done|]. rewrite IH. lia. Qed.

(** X13.  When the two selectors are the hex forms of the byte strings
    [castBallot] and [withdrawal], a transaction is a vote exactly when it
    is of type 13 and the first four bytes of the payload of input 0 are
    [castBallot], and a withdrawal exactly when they are [withdrawal]; when
    both selectors have four bytes, a payload shorter than four bytes makes
    the transaction irrelevant rather than an error. *)
Theorem selectors_are_first_four_bytes tx i0 castBallot withdrawal :
  voteFuncSig = toHex castBallot →
  withdrawFuncSig = toHex withdrawal →
  inputs tx !! 0%nat = Some i0 →
  (isVote tx = Ok true ↔ type tx = 13 ∧ take 4 (msgData i0) = castBallot)
  ∧ (isWithdraw tx = Ok true
     ↔ type tx = 13 ∧ take 4 (msgData i0) = withdrawal)
  ∧ (length castBallot = 4%nat → length withdrawal = 4%nat →
     (length (msgData i0) < 4)%nat → isRelevant tx = Ok false).
Proof.
  intros Hv Hw Hi0.
  assert (∀ sel sig, sig = toHex sel →
            (if isSpendie tx
             then s ← getFuncSig tx; Ok (bool_decide (s = sig))
             else Ok false) = Ok true
            ↔ type tx = 13 ∧ take 4 (msgData i0) = sel) as Hsel.
  { intros sel sig ->. unfold isSpendie, getFuncSig, input. rewrite Hi0.
    case_bool_decide as Ht; simpl.
    - split.
      + intros [= Heq%bool_decide_eq_true]. split; [done|].
        by apply toHex_inj.
      + intros [_ ->]. by rewrite bool_decide_eq_true_2.
    - split; [done|]. by intros [? _]. }
  split; [by apply Hsel|]. split; [by apply Hsel|].
  intros Hlv Hlw Hshort.
  assert (take 4 (msgData i0) ≠ castBallot ∧ take 4 (msgData i0) ≠ withdrawal)
    as [Hnv Hnw].
  { split; intros Heq; apply (f_equal length) in Heq;
      rewrite length_take in Heq; lia. }
  unfold isRelevant, isVote, isWithdraw, isSpendie, getFuncSig, input.
  rewrite Hi0, Hv, Hw. case_bool_decide; simpl; [|done].
  rewrite !bool_decide_eq_false_2; [done|..]; by intros ?%toHex_inj.
Qed.

End selectors.

(** ** More on the distribution *)

Section distribution_more.

Lemma countByNumberOfVotes_lookup_count arr k :
  countByNumberOfVotes arr !! k
  = if decide (length (filter (λ e : string * Z, e.2 = k) arr) = 0%nat)
    then None
    else Some (Z.of_nat (length (filter (λ e : string * Z, e.2 = k) arr))).
Proof.
  pose proof (countByNumberOfVotes_lookup arr k) as Hl.
  pose proof (countByNumberOfVotes_positive arr) as Hp.
  destruct (countByNumberOfVotes arr !! k) as [c|] eqn:Hc; simpl in Hl.
  - specialize (Hp _ _ Hc). simpl in Hp.
    case_decide; [lia|by rewrite Hl].
  - case_decide; [done|lia].
Qed.

(** X14.  In every element of [groupedDistr], a vote value other than 0
    has a bucket exactly when some voter of the proposal holds that value,
    and the bucket counts these voters. *)
Theorem nonzero_buckets_count_holders st :
  Forall (λ g, ∀ votes, votes ≠ 0 →
    let holders :=
      size (filter (λ e, e.2 = votes) (default ∅ (distr st !! g.1))) in
    g.2 !! votes
    = if decide (holders = 0%nat) then None else Some (Z.of_nat holders))
    (groupedDistr st).
Proof.
  apply groupedDistr_Forall. intros pid votes Hne holders.
  unfold summarize. simpl. rewrite lookup_insert_ne by done.
  rewrite countByNumberOfVotes_lookup_count.
  by rewrite filter_map_to_list_length.
Qed.

Lemma weightedVotes_empty : weightedVotes ∅ = 0.
Proof. unfold weightedVotes. by rewrite map_to_list_empty. Qed.

Lemma weightedVotes_insert_fresh (m : gmap Z Z) k v :
  m !! k = None → weightedVotes (<[k := v]> m) = k * v + weightedVotes m.
Proof.
  intros Hk. unfold weightedVotes.
  by rewrite (sumList_Permutation _
       ((λ e : Z * Z, e.1 * e.2) <$> (k, v) :: map_to_list m))
    by (by rewrite map_to_list_insert).
Qed.

Lemma weightedVotes_insert (m : gmap Z Z) k v :
  weightedVotes (<[k := v]> m)
  = weightedVotes m - k * default 0 (m !! k) + k * v.
Proof.
  destruct (m !! k) as [x|] eqn:Hk; simpl.
  - rewrite <- (insert_delete_id m k x) at 2 by done.
    rewrite <- insert_delete_eq.
    rewrite !weightedVotes_insert_fresh by apply lookup_delete_eq. lia.
  - rewrite weightedVotes_insert_fresh by done. lia.
Qed.

Lemma count_fold_weighted (arr : list (string * Z)) (r : gmap Z Z) :
  weightedVotes
    (fold_left (λ r v, <[v.2 := default 0 (r !! v.2) + 1]> r) arr r)
  = weightedVotes r + sumList arr.*2.
Proof.
  revert r. induction arr as [|v arr IH]; intros r.
  - unfold sumList. simpl. lia.
  - cbn [fold_left]. rewrite IH, weightedVotes_insert, fmap_cons.
    unfold sumList. cbn [foldr]. fold (sumList arr.*2). lia.
Qed.

(** X15.  The histogram keeps the total: in every element of
    [groupedDistr], the vote values weighted by their counts add up to the
    sum of the net votes of the proposal's voters. *)
Theorem histogram_keeps_total st :
  Forall (λ g, weightedVotes g.2 = netTotal (default ∅ (distr st !! g.1)))
    (groupedDistr st).
Proof.
  apply groupedDistr_Forall. intros pid. unfold summarize, netTotal. simpl.
  rewrite weightedVotes_insert. unfold countByNumberOfVotes.
  rewrite count_fold_weighted, weightedVotes_empty. lia.
Qed.

Lemma length_sortedKeys d : length (sortedKeys d) = size d.
Proof.
  unfold sortedKeys. rewrite merge_sort_Permutation, length_fmap.
  apply length_map_to_list.
Qed.

Lemma length_sortedEntries m : length (sortedEntries m) = size m.
Proof.
  unfold sortedEntries. rewrite merge_sort_Permutation.
  apply length_map_to_list.
Qed.

Lemma length_csv grouped :
  length (distributionByVoteCSV grouped)
  = S (sum_list ((λ g : string * gmap Z Z, size g.2) <$> grouped)).
Proof.
  unfold distributionByVoteCSV. cbn [length]. f_equal.
  induction grouped as [|g grouped IH]; [done|].
  rewrite !fmap_cons. cbn [concat sum_list sum_list_with id].
  rewrite length_app, IH. f_equal.
  unfold csvRows. by rewrite length_fmap, length_sortedEntries.
Qed.

Lemma sum_list_at_least_length {A} (f : A → nat) (l : list A) :
  Forall (λ x, (1 ≤ f x)%nat) l → (length l ≤ sum_list (f <$> l))%nat.
Proof.
  induction 1 as [|x l Hx _ IH]; [done|].
  rewrite fmap_cons. cbn [length sum_list sum_list_with id]. lia.
Qed.

(** X16.  The CSV has the header and one row per bucket; [groupedDistr]
    has one element per proposal of the ledger, and each has at least the
    bucket of 0, so there are at least as many rows as proposals. *)
Theorem csv_size st :
  length (distributionByVoteCSV (groupedDistr st))
  = S (sum_list ((λ g, size g.2) <$> groupedDistr st))
  ∧ length (groupedDistr st) = size (distr st)
  ∧ Forall (λ g, (1 ≤ size g.2)%nat) (groupedDistr st)
  ∧ (S (size (distr st)) ≤ length (distributionByVoteCSV (groupedDistr st)))%nat.
Proof.
  assert (length (groupedDistr st) = size (distr st)) as Hlen.
  { unfold groupedDistr. by rewrite length_fmap, length_sortedKeys. }
  assert (Forall (λ g : string * gmap Z Z, (1 ≤ size g.2)%nat)
            (groupedDistr st)) as Hone.
  { apply groupedDistr_Forall. intros pid. unfold summarize. simpl.
    match goal with |- (1 ≤ size ?m)%nat => destruct (size m) eqn:Hsize end;
      [|lia].
    apply map_size_empty_inv in Hsize. by apply insert_non_empty in Hsize. }
  split; [apply length_csv|]. split; [done|]. split; [done|].
  rewrite length_csv, <- Hlen. apply le_n_S.
  by apply sum_list_at_least_length.
Qed.

End distribution_more.

(** ** Fetching *)

Section fetching.
Context `{Contracts}.

Lemma downloadFrom_blocks getBlock count blockNum txs :
  Fetch.downloadFrom getBlock count blockNum txs
  = blocks ← mapM getBlock (seqZ blockNum (Z.of_nat count));
    Some (txs ++ (Fetch.slimTx <$> concat blocks)).
Proof.
  revert blockNum txs. induction count as [|count IH]; intros blockNum txs.
  - simpl. by rewrite app_nil_r.
  - rewrite seqZ_cons by lia. cbn [Fetch.downloadFrom mapM].
    destruct (getBlock blockNum) as [block|]; simpl; [|done].
    rewrite IH. replace (Z.pred (Z.of_nat (S count))) with (Z.of_nat count) by lia.
    replace (Z.succ blockNum) with (blockNum + 1) by lia.
    destruct (mapM getBlock (seqZ (blockNum + 1) (Z.of_nat count)))
      as [blocks|]; simpl; [|done].
    by rewrite fmap_app, (assoc_L (++)).
Qed.

Lemma downloadTxs_blocks getBlock :
  Fetch.downloadTxs getBlock
  = blocks ← mapM getBlock (seqZ 87632 3839);
    Some (Fetch.slimTx <$> concat blocks).
Proof.
  unfold Fetch.downloadTxs. rewrite downloadFrom_blocks. done.
Qed.

(** X17.  [downloadTxs] asks the node for the 3839 blocks from 87632 to
    91470 in ascending order, and returns the transactions of all of
    them, slimmed, block after block and within a block in the block's
    order; when one block cannot be had there is no result at all. *)
Theorem downloadTxs_in_block_order getBlock :
  Fetch.downloadTxs getBlock
  = blocks ← mapM getBlock (seqZ 87632 3839);
    Some (Fetch.slimTx <$> concat blocks).
Proof. apply downloadTxs_blocks. Qed.

(** X18.  [downloadTxs] has a result exactly when the node answers for
    every block from 87632 to 91470; blocks outside that range are never
    asked for. *)
Theorem downloadTxs_all_or_nothing getBlock :
  (is_Some (Fetch.downloadTxs getBlock)
   ↔ ∀ b, 87632 ≤ b ≤ 91470 → is_Some (getBlock b))
  ∧ ∀ getBlock',
      (∀ b, 87632 ≤ b ≤ 91470 → getBlock' b = getBlock b) →
      Fetch.downloadTxs getBlock' = Fetch.downloadTxs getBlock.
Proof.
  split.
  - rewrite downloadTxs_blocks.
    transitivity (is_Some (mapM getBlock (seqZ 87632 3839))).
    { destruct (mapM getBlock (seqZ 87632 3839)); simpl; [|done].
      split; eauto. }
    rewrite mapM_is_Some, Forall_forall. split.
    + intros Hall b Hb. apply (Hall b). apply elem_of_seqZ. lia.
    + intros Hall b Hb%elem_of_seqZ. apply Hall. lia.
  - intros getBlock' Hsame. rewrite !downloadTxs_blocks.
    assert (mapM getBlock' (seqZ 87632 3839) = mapM getBlock (seqZ 87632 3839))
      as ->; [|done].
    assert (Forall (λ b, 87632 ≤ b ≤ 91470) (seqZ 87632 3839)) as Hrange.
    { apply Forall_forall. intros b Hb%elem_of_seqZ. lia. }
    induction Hrange as [|b bs Hb _ IH]; [done|].
    cbn [mapM]. by rewrite (Hsame b Hb), IH.
Qed.

Lemma seqZ_sorted (m : Z) (k : nat) : Sorted Z.le (seqZ m (Z.of_nat k)).
Proof.
  revert m. induction k as [|k IH]; intros m; [constructor|].
  rewrite seqZ_cons by lia.
  replace (Z.pred (Z.of_nat (S k))) with (Z.of_nat k) by lia.
  constructor; [apply IH|].
  destruct k as [|k]; [constructor|].
  rewrite seqZ_cons by lia. constructor. lia.
Qed.

Lemma concat_blocks_sorted (bs : list Z) (blocks : list (list Fetch.BlockTx)) :
  StronglySorted Z.le bs →
  Forall2 (λ b block, Forall (λ t, Fetch.blockNumber t = b) block) bs blocks →
  StronglySorted (λ t1 t2, Fetch.slimBlockNumber t1 ≤ Fetch.slimBlockNumber t2)
    (Fetch.slimTx <$> concat blocks)
  ∧ Forall (λ t, ∃ b, b ∈ bs ∧ Fetch.blockNumber t = b) (concat blocks).
Proof.
  intros Hbs Hall. induction Hall as [|b block bs blocks Hblock _ IH].
  - simpl. split; constructor.
  - apply StronglySorted_cons in Hbs as [Hb Hbs].
    destruct (IH Hbs) as (Hsorted & Hin).
    split.
    + simpl. rewrite fmap_app. apply StronglySorted_app. split; [|split].
      * intros t1 t2 (u1 & -> & Hu1)%list_elem_of_fmap
          (u2 & -> & Hu2)%list_elem_of_fmap. simpl.
        rewrite Forall_forall in Hblock. rewrite Forall_forall in Hin.
        rewrite Forall_forall in Hb.
        rewrite (Hblock u1 Hu1).
        destruct (Hin u2 Hu2) as (b' & Hb' & ->). by apply Hb.
      * clear -Hblock. induction Hblock as [|t block Ht Hblock IH];
          [constructor|].
        rewrite fmap_cons. apply StronglySorted_cons. split; [|done].
        apply Forall_fmap. eapply Forall_impl; [exact Hblock|].
        intros t' Ht'. simpl in *. lia.
      * done.
    + simpl. apply Forall_app. split.
      * eapply Forall_impl; [exact Hblock|]. intros t Ht. exists b.
        split; [apply list_elem_of_here|done].
      * eapply Forall_impl; [exact Hin|]. intros t (b' & Hb' & Ht).
        exists b'. split; [by apply list_elem_of_further|done].
Qed.

(** X19.  When the node labels the transactions of a block with the
    number of that block, the transactions [downloadTxs] returns are in
    the order of their block numbers, all of them from 87632 to 91470. *)
Theorem downloadTxs_sorted_by_block getBlock txs :
  (∀ b block, getBlock b = Some block →
     Forall (λ t, Fetch.blockNumber t = b) block) →
  Fetch.downloadTxs getBlock = Some txs →
  StronglySorted (λ t1 t2, Fetch.slimBlockNumber t1 ≤ Fetch.slimBlockNumber t2)
    txs
  ∧ Forall (λ t, 87632 ≤ Fetch.slimBlockNumber t ≤ 91470) txs.
Proof.
  intros Hlabel. rewrite downloadTxs_blocks.
  destruct (mapM getBlock (seqZ 87632 3839)) as [blocks|] eqn:Hblocks;
    simpl; [|done].
  intros [= <-]. apply mapM_Some in Hblocks.
  assert (Forall2 (λ b block, Forall (λ t, Fetch.blockNumber t = b) block)
            (seqZ 87632 3839) blocks) as Hall.
  { eapply Forall2_impl; [exact Hblocks|]. intros b block. apply Hlabel. }
  assert (StronglySorted Z.le (seqZ 87632 3839)) as Hbs.
  { apply Sorted_StronglySorted; [apply _|]. apply (seqZ_sorted 87632 3839). }
  destruct (concat_blocks_sorted _ _ Hbs Hall) as (Hsorted & Hin).
  split; [done|]. apply Forall_fmap.
  eapply Forall_impl; [exact Hin|].
  intros t (b & Hb%elem_of_seqZ & Ht). simpl. lia.
Qed.

(** X20.  Without a cached file the registry is the feed without the
    entries that have no id, slimmed and in the order of the feed: every
    feed entry with an id is in it, and nothing else.  With that registry
    [getProposalId] returns the id of the first proposal that has the box
    as its yes or no box, and it warns exactly when no feed entry with an
    id owns the box. *)
Theorem feed_proposals_resolve feed tx voter boxAddress :
  getBoxAddress tx voter = Ok boxAddress →
  let proposals := Fetch.getProposals None feed in
  Forall (λ prop, proposalId prop ≠ ""
                  ∧ ∃ p, p ∈ feed ∧ prop = Fetch.slimProposal p) proposals
  ∧ (∀ p, p ∈ feed → Fetch.feedProposalId p ≠ "" →
       Fetch.slimProposal p ∈ proposals)
  ∧ proposals `sublist_of` (Fetch.slimProposal <$> feed)
  ∧ getProposalId tx proposals voter
    = match getProposalByBox proposals boxAddress with
      | Some prop => Ok (Some (proposalId prop), [])
      | None => Ok (None, [UnknownProposalVote boxAddress])
      end
  ∧ (getProposalId tx proposals voter
     = Ok (None, [UnknownProposalVote boxAddress])
     ↔ ∀ p, p ∈ feed → Fetch.feedProposalId p ≠ "" →
         Fetch.feedYesBoxAddress p ≠ boxAddress
         ∧ Fetch.feedNoBoxAddress p ≠ boxAddress).
Proof.
  intros Hbox proposals.
  assert (Forall (λ prop, proposalId prop ≠ ""
                    ∧ ∃ p, p ∈ feed ∧ prop = Fetch.slimProposal p) proposals)
    as Hall.
  { unfold proposals, Fetch.getProposals. apply Forall_fmap, Forall_forall.
    intros p [Hid Hin]%list_elem_of_filter. simpl. split; [done|].
    by exists p. }
  assert (∀ p, p ∈ feed → Fetch.feedProposalId p ≠ "" →
            Fetch.slimProposal p ∈ proposals) as Hfull.
  { intros p Hin Hid. unfold proposals, Fetch.getProposals.
    apply list_elem_of_fmap_2. by apply list_elem_of_filter. }
  assert (getProposalId tx proposals voter
          = match getProposalByBox proposals boxAddress with
            | Some prop => Ok (Some (proposalId prop), [])
            | None => Ok (None, [UnknownProposalVote boxAddress])
            end) as Hres.
  { unfold getProposalId. rewrite Hbox. simpl.
    destruct (getProposalByBox proposals boxAddress) as [prop|] eqn:Hprop;
      [|done].
    apply getProposalByBox_Some in Hprop as [Hin _].
    rewrite Forall_forall in Hall. destruct (Hall prop Hin) as [Hid _].
    by rewrite bool_decide_eq_true_2. }
  split; [done|]. split; [done|]. split.
  { unfold proposals, Fetch.getProposals.
    apply fmap_sublist, sublist_filter. }
  split; [done|]. rewrite Hres.
  destruct (getProposalByBox proposals boxAddress) as [prop|] eqn:Hprop.
  - split; [done|]. intros Hnone.
    apply getProposalByBox_Some in Hprop as [Hin Hown].
    rewrite Forall_forall in Hall.
    destruct (Hall prop Hin) as [Hid (p & Hp & ->)].
    destruct (Hnone p Hp Hid) as [Hy Hn]. by destruct Hown.
  - split; [|done]. intros _ p Hp Hid.
    rewrite getProposalByBox_None in Hprop.
    apply (Hprop (Fetch.slimProposal p)), Hfull; done.
Qed.

End fetching.

(** ** The first exception, and the form of a withdrawal's box *)

Section first_throw.
Context `{Contracts}.

(** X22.  A run ends at the first transaction on which the callback
    throws, with that exception; the transactions after it are not looked
    at, and [main] writes no CSV. *)
Theorem run_stops_at_first_throw proposals before tx after st e :
  forEach proposals before initial = Ok st →
  step proposals tx st = Throw e →
  forEach proposals (before ++ tx :: after) initial = Throw e
  ∧ main proposals (before ++ tx :: after) = Throw e.
Proof.
  intros Hbefore Hstep.
  assert (forEach proposals (before ++ tx :: after) initial = Throw e) as Hrun.
  { rewrite forEach_app, Hbefore. simpl. by rewrite Hstep. }
  split; [done|]. unfold main. by rewrite Hrun.
Qed.

Lemma hexDigit_lower (n : N) :
  hexDigit n ∈ ["0"; "1"; "2"; "3"; "4"; "5"; "6"; "7";
                "8"; "9"; "a"; "b"; "c"; "d"; "e"; "f"]%char.
Proof.
  unfold hexDigit.
  destruct (_ !! N.to_nat n) as [c|] eqn:Hc; simpl.
  - by eapply list_elem_of_lookup_2.
  - apply list_elem_of_here.
Qed.

Lemma lowerHex_toHex (b : list byte) : lowerHex (toHex b) = true.
Proof.
  induction b as [|x b IH]; simpl; [done|].
  rewrite IH, !bool_decide_eq_true_2 by apply hexDigit_lower. done.
Qed.

(** X23.  A withdrawal resolves only through a registry address written
    as [0x] followed by lower-case hex digits: the box address of a
    withdrawal has that form, and addresses are compared as strings. *)
Theorem withdrawal_resolves_through_lower_hex tx proposals voter pid warned :
  isWithdraw tx = Ok true →
  getProposalId tx proposals voter = Ok (Some pid, warned) →
  ∃ prop digits,
    prop ∈ proposals ∧ proposalId prop = pid
    ∧ lowerHex digits = true
    ∧ (yesBoxAddress prop = "0x" +:+ digits
       ∨ noBoxAddress prop = "0x" +:+ digits).
Proof.
  intros Hw Hp.
  apply getProposalId_inv in Hp
    as (box & Hbox & _ & _ & prop & Hin & Hid & Hmatch).
  unfold getBoxAddress, input in Hbox. rewrite Hw in Hbox. simpl in Hbox.
  destruct (inputs tx !! 0%nat) as [i0|]; simpl in Hbox; [|done].
  injection Hbox as <-.
  exists prop, (toHex (ripemd160 (script i0))).
  split; [done|]. split; [done|]. split; [apply lowerHex_toHex|done].
Qed.

End first_throw.

(** ** The script on concrete transactions *)

Section examples.
Import Demo.

Example csv_of_ledger :
  csvOf ledger = Ok ["Proposal,Votes,Count"; "P1,0,1"; "P1,7,1"].
Proof. vm_compute. reflexivity. Qed.

Example sums_round_to_even :
  jsAdd (2 ^ 53 - 1) 2 = 2 ^ 53
  ∧ jsAdd (2 ^ 53) (- 2) = 2 ^ 53 - 2
  ∧ jsAdd (2 ^ 53 + 2) (- 1) = 2 ^ 53
  ∧ jsAdd (2 ^ 53 + 2) 1 = 2 ^ 53 + 4
  ∧ jsAdd (- (2 ^ 53)) (- 1) = - (2 ^ 53).
Proof. vm_compute. repeat split. Qed.

Example csv_of_nothing : csvOf [] = Ok ["Proposal,Votes,Count"].
Proof. vm_compute. reflexivity. Qed.

Example vote_then_withdraw :
  csvOf [vote alice yesBox (tokens 5); withdraw alice yesScript (tokens 5)]
  = Ok ["Proposal,Votes,Count"; "P1,0,1"].
Proof. vm_compute. reflexivity. Qed.

Example negative_rows_first :
  csvOf [vote alice noBox (tokens (-3)); vote bob yesBox (tokens 7)]
  = Ok ["Proposal,Votes,Count"; "P1,-3,1"; "P1,0,0"; "P1,7,1"].
Proof. vm_compute. reflexivity. Qed.



Lemma unresolved_box_skipped_witness :
  let st' := {| distr := ∅; voters := {[bob]} ∪ ∅;
                warnings := [UnknownProposalVote strayBox] |} in
  step proposals (withdraw bob strayScript (tokens 1)) initial = Ok st'
  ∧ forEach proposals
      [withdraw bob strayScript (tokens 1); vote bob yesBox (tokens 7)] initial
    = forEach proposals [vote bob yesBox (tokens 7)] st'.
Proof.
  apply (unresolved_box_skipped proposals
           (withdraw bob strayScript (tokens 1))
           [vote bob yesBox (tokens 7)] initial
           {| msgData := []; script := []; signer := bob |} strayBox);
    vm_compute; reflexivity.
Defined.

(** C4, as stated, fails: the run below has a vote whose payload stops
    after the selector, followed by a sound vote.  The first throws, the
    run ends with that exception, and no state makes it equal to the run
    of the second vote alone. *)
Lemma undecodable_payload_not_skipped :
  let bad := truncated alice yesBox in
  let later := vote bob yesBox (tokens 7) in
  isRelevant bad = Ok true
  ∧ abiDecode (bufferToHex (drop 4 castBallotSelector)) = None
  ∧ main proposals [bad; later] = Throw DecodeError
  ∧ ¬ ∃ st', forEach proposals [bad; later] initial
             = forEach proposals [later] st'.
Proof.
  intros bad later.
  split; [vm_compute; reflexivity|].
  split; [vm_compute; reflexivity|].
  split; [vm_compute; reflexivity|].
  intros [st' Hst'].
  assert (forEach proposals [bad; later] initial = Throw DecodeError) as Hbad
    by (vm_compute; reflexivity).
  assert (step proposals later st'
          = Ok (aggregated st' "P1" bob false 7 [])) as Hlater.
  { apply (step_resolved proposals later st'
             {| msgData := []; script := []; signer := bob |} "P1" [] 7 false);
      vm_compute; reflexivity. }
  rewrite Hbad in Hst'. unfold forEach in Hst'. rewrite Hlater in Hst'.
  discriminate Hst'.
Qed.

Lemma undecodable_payload_aborts_witness :
  step proposals (truncated alice yesBox) initial = Throw DecodeError
  ∧ (∀ before st0 txs,
       forEach proposals before st0 = Ok initial →
       forEach proposals (before ++ truncated alice yesBox :: txs) st0
       = Throw DecodeError)
  ∧ (∀ before txs,
       forEach proposals before initial = Ok initial →
       main proposals (before ++ truncated alice yesBox :: txs)
       = Throw DecodeError).
Proof.
  apply (undecodable_payload_aborts proposals (truncated alice yesBox) initial
           {| msgData := castBallotSelector; script := []; signer := "" |}
           {| msgData := []; script := []; signer := alice |} "P1" []);
    vm_compute; reflexivity.
Defined.

(** C5, as stated, fails: for a withdrawal of 3 tokens [getVotes] returns
    -3, and for a withdrawal of less than one token the count is 0. *)
Lemma withdraw_votes_not_positive :
  let tx := withdraw alice yesScript (tokens 3) in
  let dust := withdraw alice yesScript 5 in
  isWithdraw tx = Ok true
  ∧ getVotes tx = Ok (-3)
  ∧ ¬ (∀ v, getVotes tx = Ok v → 0 < v)
  ∧ isWithdraw dust = Ok true
  ∧ decodedVotes dust = Ok 0.
Proof.
  intros tx dust.
  assert (getVotes tx = Ok (-3)) as Hv by (vm_compute; reflexivity).
  split; [vm_compute; reflexivity|].
  split; [exact Hv|].
  split; [|split; vm_compute; reflexivity].
  intros Hpos. specialize (Hpos (-3) Hv). lia.
Qed.

Lemma getVotes_fourth_parameter_witness :
  decodedVotes (withdraw alice yesScript (tokens 3)) = Ok (tokens 3 ÷ 10 ^ 18)
  ∧ getVotes (withdraw alice yesScript (tokens 3))
    = Ok (- (tokens 3 ÷ 10 ^ 18)).
Proof.
  apply (getVotes_fourth_parameter (withdraw alice yesScript (tokens 3))
           {| msgData := payload withdrawSelector 1 128 0 (tokens 3);
              script := yesScript; signer := "" |}
           [BigNumber 1; BigNumber 128; BigNumber 0; BigNumber (tokens 3)]
           (tokens 3) true);
    vm_compute; reflexivity.
Defined.

Lemma box_address_derivation_witness :
  getBoxAddress (vote alice yesBox (tokens 5)) alice = Ok yesBox
  ∧ getBoxAddress (withdraw alice noScript (tokens 3)) alice
    = Ok (bufferToHex (ripemd160 noScript))
  ∧ ∃ boxAddress,
      getBoxAddress (withdraw bob strayScript (tokens 1)) bob = Ok boxAddress
      ∧ voters {| distr := ∅; voters := {[bob]} ∪ ∅;
                  warnings := [UnknownProposalVote strayBox] |}
        = {[bob]} ∪ voters initial.
Proof.
  split; [|split].
  - apply (proj1 (box_address_derivation (vote alice yesBox (tokens 5)))
             alice [ {| address := alice; color := 4; value := 1 |} ]
             {| address := yesBox; color := 4; value := 1 |} []);
      try (vm_compute; reflexivity).
    + vm_compute. discriminate.
    + vm_compute. discriminate.
    + apply Forall_cons. split; [|apply Forall_nil_2].
      intros [_ Hne]. by apply Hne.
  - apply (proj1 (proj2 (box_address_derivation
                           (withdraw alice noScript (tokens 3))))
             alice
             {| msgData := payload withdrawSelector 1 128 0 (tokens 3);
                script := noScript; signer := "" |});
      vm_compute; reflexivity.
  - destruct (proj2 (proj2 (box_address_derivation
                              (withdraw bob strayScript (tokens 1))))
                proposals initial
                {| distr := ∅; voters := {[bob]} ∪ ∅;
                   warnings := [UnknownProposalVote strayBox] |}
                {| msgData := []; script := []; signer := bob |})
      as (boxAddress & Hbox & Hvoters & _); [vm_compute; reflexivity..|].
    exists boxAddress. split; [exact Hbox|exact Hvoters].
Defined.

Lemma aggregation_order_matters_witness :
  ∃ txs txs' st st',
    txs ≡ₚ txs' ∧ withdraw alice yesScript (tokens 3) ∈ txs
    ∧ forEach proposals txs initial = Ok st
    ∧ forEach proposals txs' initial = Ok st'
    ∧ entry st "P1" alice = Some 5
    ∧ entry st' "P1" alice = Some (5 - 2 * 3)
    ∧ distr st ≠ distr st'.
Proof.
  apply (aggregation_order_matters proposals
           (vote alice yesBox (tokens 5)) (withdraw alice yesScript (tokens 3))
           {| msgData := []; script := []; signer := alice |}
           {| msgData := []; script := []; signer := alice |}
           "P1" 5 3 [] []);
    try (vm_compute; reflexivity).
  lia.
Defined.

Lemma zero_bucket_count_witness :
  ∃ countByVote,
    ("P1", countByVote) ∈ groupedDistr minusThree
    ∧ countByVote !! 0
      = Some (Z.of_nat (size (filter (λ e : string * Z, e.2 = 0)
                                ({[ alice := -3 ]} : gmap string Z)))
              + (Z.of_nat (size (voters minusThree))
                 - Z.of_nat (size ({[ alice := -3 ]} : gmap string Z)))).
Proof.
  apply (proj2 (zero_bucket_count minusThree) "P1" {[ alice := -3 ]}).
  vm_compute. reflexivity.
Defined.

Lemma counts_nonnegative_witness :
  ∃ st,
    forEach proposals ledger initial = Ok st
    ∧ votersRecorded st
    ∧ Forall (λ g, map_Forall (λ _ c, 0 ≤ c) g.2) (groupedDistr st).
Proof.
  eexists. split; [vm_compute; reflexivity|].
  apply (counts_nonnegative proposals ledger). vm_compute. reflexivity.
Defined.

End examples.

(** ** More runs on concrete transactions *)

Section more_examples.
Import Demo Sample.

Example download_from_node :
  Fetch.downloadTxs node
  = Some (Fetch.slimTx <$> [blockTx 87632 "0x01"; blockTx 90000 "0x02";
                            blockTx 90000 "0x03"]).
Proof. vm_compute. reflexivity. Qed.

Example draft_is_filtered :
  Fetch.getProposals None feed = proposals.
Proof. vm_compute. reflexivity. Qed.

Lemma getProposalId_resolution_witness :
  ∃ boxAddress,
    getBoxAddress (vote alice yesBox (tokens 5)) alice = Ok boxAddress
    ∧ [] = ([] : list diagnostic) ∧ "P1" ≠ ""
    ∧ ∃ prop, prop ∈ proposals ∧ proposalId prop = "P1"
        ∧ (yesBoxAddress prop = boxAddress ∨ noBoxAddress prop = boxAddress).
Proof.
  apply (getProposalId_resolution (vote alice yesBox (tokens 5)) proposals
           alice (Some "P1") []).
  vm_compute. reflexivity.
Defined.

Lemma irrelevant_tx_ignored_witness :
  step proposals transfer minusThree = Ok minusThree
  ∧ forEach proposals [transfer; vote bob yesBox (tokens 7)] minusThree
    = forEach proposals [vote bob yesBox (tokens 7)] minusThree.
Proof.
  apply (irrelevant_tx_ignored proposals transfer
           [vote bob yesBox (tokens 7)] minusThree).
  left. vm_compute. discriminate.
Defined.

Lemma too_few_inputs_abort_witness :
  step proposals hollow initial = Throw TypeError
  ∧ forEach proposals [hollow; vote bob yesBox (tokens 7)] initial
    = Throw TypeError.
Proof.
  apply (too_few_inputs_abort proposals hollow
           [vote bob yesBox (tokens 7)] initial).
  - reflexivity.
  - left. reflexivity.
Defined.


Lemma run_only_adds_witness :
  ∃ st',
    forEach proposals ledger minusThree = Ok st'
    ∧ voters minusThree ⊆ voters st'
    ∧ warnings minusThree `prefix_of` warnings st'
    ∧ ∀ pid voter,
        is_Some (entry minusThree pid voter) → is_Some (entry st' pid voter).
Proof.
  eexists. split; [vm_compute; reflexivity|].
  apply (run_only_adds proposals ledger minusThree).
  vm_compute. reflexivity.
Defined.

Lemma run_adds_at_most_one_each_witness :
  ∃ st',
    forEach proposals ledger initial = Ok st'
    ∧ (size (voters st') ≤ size (voters initial) + length ledger)%nat
    ∧ (length (warnings st') ≤ length (warnings initial) + length ledger)%nat.
Proof.
  eexists. split; [vm_compute; reflexivity|].
  apply (run_adds_at_most_one_each proposals ledger initial).
  vm_compute. reflexivity.
Defined.

Lemma ledger_holds_known_proposals_witness :
  ∃ st, forEach proposals ledger initial = Ok st ∧ ledgerKnown proposals st.
Proof.
  eexists. split; [vm_compute; reflexivity|].
  apply (ledger_holds_known_proposals proposals ledger).
  vm_compute. reflexivity.
Defined.

Lemma voters_are_the_signers_witness :
  ∃ st',
    forEach proposals ledger initial = Ok st'
    ∧ (bob ∈ voters st'
       ↔ bob ∈ voters initial ∨ ∃ tx, tx ∈ ledger ∧ castBy tx bob).
Proof.
  eexists. split; [vm_compute; reflexivity|].
  apply (voters_are_the_signers proposals ledger initial).
  vm_compute. reflexivity.
Defined.

Lemma others_leave_entries_alone_witness :
  ∃ st',
    forEach proposals [vote bob yesBox (tokens 7)] minusThree = Ok st'
    ∧ ∀ pid, entry st' pid alice = entry minusThree pid alice.
Proof.
  eexists. split; [vm_compute; reflexivity|].
  apply (others_leave_entries_alone proposals
           [vote bob yesBox (tokens 7)] minusThree).
  - vm_compute. reflexivity.
  - apply Forall_cons. split; [|apply Forall_nil_2].
    intros [_ (i & Hi & Hs)]. vm_compute in Hi. injection Hi as <-.
    discriminate Hs.
Defined.


Lemma opposite_vote_not_undone_witness :
  ∃ st',
    forEach proposals
      [vote alice noBox (tokens (-3)); withdraw alice noScript (tokens 3)]
      plusFive = Ok st'
    ∧ entry st' "P1" alice = Some (netVotes plusFive "P1" alice + 2 * -3)
    ∧ entry st' "P1" alice ≠ Some (netVotes plusFive "P1" alice).
Proof.
  apply (opposite_vote_not_undone proposals
           (vote alice noBox (tokens (-3)))
           (withdraw alice noScript (tokens 3)) plusFive
           {| msgData := []; script := []; signer := alice |}
           {| msgData := []; script := []; signer := alice |}
           "P1" (-3) [] []);
    first [vm_compute; reflexivity | by_decide].
Defined.


Lemma selectors_are_first_four_bytes_witness :
  let tx := vote alice yesBox (tokens 5) in
  let i0 := {| msgData := payload castBallotSelector 1 128 0 (tokens 5);
               script := []; signer := "" |} in
  (isVote tx = Ok true
   ↔ type tx = 13 ∧ take 4 (msgData i0) = castBallotSelector)
  ∧ (isWithdraw tx = Ok true
     ↔ type tx = 13 ∧ take 4 (msgData i0) = withdrawSelector)
  ∧ (length castBallotSelector = 4%nat → length withdrawSelector = 4%nat →
     (length (msgData i0) < 4)%nat → isRelevant tx = Ok false).
Proof.
  apply (selectors_are_first_four_bytes (vote alice yesBox (tokens 5))
           {| msgData := payload castBallotSelector 1 128 0 (tokens 5);
              script := []; signer := "" |}
           castBallotSelector withdrawSelector);
    reflexivity.
Defined.

Lemma downloadTxs_sorted_by_block_witness :
  let txs := Fetch.slimTx <$> [blockTx 87632 "0x01"; blockTx 90000 "0x02";
                               blockTx 90000 "0x03"] in
  StronglySorted
    (λ t1 t2, Fetch.slimBlockNumber t1 ≤ Fetch.slimBlockNumber t2) txs
  ∧ Forall (λ t, 87632 ≤ Fetch.slimBlockNumber t ≤ 91470) txs.
Proof.
  apply (downloadTxs_sorted_by_block node).
  - intros b block. unfold node. repeat case_bool_decide; intros [= <-].
    + subst b. apply Forall_cons. split; [reflexivity|apply Forall_nil_2].
    + subst b. apply Forall_cons. split; [reflexivity|].
      apply Forall_cons. split; [reflexivity|apply Forall_nil_2].
    + apply Forall_nil_2.
  - vm_compute. reflexivity.
Defined.

Lemma feed_proposals_resolve_witness :
  let registry := Fetch.getProposals None feed in
  Forall (λ prop, proposalId prop ≠ ""
                  ∧ ∃ p, p ∈ feed ∧ prop = Fetch.slimProposal p) registry
  ∧ (∀ p, p ∈ feed → Fetch.feedProposalId p ≠ "" →
       Fetch.slimProposal p ∈ registry)
  ∧ registry `sublist_of` (Fetch.slimProposal <$> feed)
  ∧ getProposalId (withdraw alice yesScript (tokens 3)) registry alice
    = match getProposalByBox registry yesBox with
      | Some prop => Ok (Some (proposalId prop), [])
      | None => Ok (None, [UnknownProposalVote yesBox])
      end
  ∧ (getProposalId (withdraw alice yesScript (tokens 3)) registry alice
     = Ok (None, [UnknownProposalVote yesBox])
     ↔ ∀ p, p ∈ feed → Fetch.feedProposalId p ≠ "" →
         Fetch.feedYesBoxAddress p ≠ yesBox
         ∧ Fetch.feedNoBoxAddress p ≠ yesBox).
Proof.
  apply (feed_proposals_resolve feed (withdraw alice yesScript (tokens 3))
           alice yesBox).
  vm_compute. reflexivity.
Defined.

Lemma countByNumberOfVotes_Permutation_witness :
  countByNumberOfVotes [(alice, 0); (bob, 7); ("0xca201", 7)]
  = countByNumberOfVotes [(bob, 7); ("0xca201", 7); (alice, 0)].
Proof.
  apply (countByNumberOfVotes_Permutation
           [(alice, 0); (bob, 7); ("0xca201", 7)]
           [(bob, 7); ("0xca201", 7); (alice, 0)]).
  apply (Permutation_cons_append [(bob, 7); ("0xca201", 7)] (alice, 0)).
Defined.

Lemma run_stops_at_first_throw_witness :
  forEach proposals
    ([vote bob yesBox (tokens 7)] ++ hollow :: [vote alice yesBox (tokens 5)])
    initial = Throw TypeError
  ∧ main proposals
      ([vote bob yesBox (tokens 7)] ++ hollow :: [vote alice yesBox (tokens 5)])
    = Throw TypeError.
Proof.
  eapply (run_stops_at_first_throw proposals [vote bob yesBox (tokens 7)]
            hollow [vote alice yesBox (tokens 5)]).
  - vm_compute. reflexivity.
  - reflexivity.
Defined.

Lemma withdrawal_resolves_through_lower_hex_witness :
  ∃ prop digits,
    prop ∈ proposals ∧ proposalId prop = "P1"
    ∧ lowerHex digits = true
    ∧ (yesBoxAddress prop = "0x" +:+ digits
       ∨ noBoxAddress prop = "0x" +:+ digits).
Proof.
  apply (withdrawal_resolves_through_lower_hex
           (withdraw alice noScript (tokens 3)) proposals alice "P1" []);
    vm_compute; reflexivity.
Defined.

End more_examples.
